(** * Occam-Extension: the function locator, the complexity cache and the
      inline-decoration scheduler of [complexityAnalyzer.ts], with the
      classifier client of [apiClient.ts].

    The development is a shallow embedding: every TypeScript function the
    properties below talk about is a Rocq function of the same name.
    JavaScript strings are sequences of UTF-16 code units, the cache is a
    finite map keyed by the decimal text of a 32-bit hash, and the effects
    of the extension (network requests, notifications, console output,
    decorations, timers, clock readings) are recorded in an explicit world
    that every operation threads through. *)

From Stdlib Require Import ZArith QArith Lia List Bool Ascii String Sorted.
From stdpp Require Import gmap strings list pretty.

Set Warnings "-register-all".
Local Open Scope Z_scope.

(** ** JavaScript strings *)

Module Js.

(** A JavaScript string is a sequence of UTF-16 code units, each one a
    number in [0, 65535] as [charCodeAt] reports it. *)
Abbreviation jsstring := (list Z) (only parsing).

Definition code_unit (c : Z) : Prop := 0 <= c < 65536.

(** Code units of an ASCII literal. *)
Definition u16 (s : string) : jsstring :=
  List.map (fun a => Z.of_nat (nat_of_ascii a)) (list_ascii_of_string s).

(** WhiteSpace and LineTerminator of ECMAScript: what [\s] matches and
    what [String.prototype.trim] strips. *)
Definition isWhiteSpace (c : Z) : bool :=
  ((9 <=? c) && (c <=? 13)) || (c =? 32) || (c =? 160) || (c =? 5760)
  || ((8192 <=? c) && (c <=? 8202)) || (c =? 8232) || (c =? 8233)
  || (c =? 8239) || (c =? 8287) || (c =? 12288) || (c =? 65279).

(** LineTerminator: where [^] matches under the [m] flag. *)
Definition isLineTerminator (c : Z) : bool :=
  (c =? 10) || (c =? 13) || (c =? 8232) || (c =? 8233).

(** [\w] is [A-Za-z0-9_]. *)
Definition isWordChar (c : Z) : bool :=
  ((65 <=? c) && (c <=? 90)) || ((97 <=? c) && (c <=? 122))
  || ((48 <=? c) && (c <=? 57)) || (c =? 95).

Fixpoint trimStart (s : jsstring) : jsstring :=
  match s with
  | c :: s' => if isWhiteSpace c then trimStart s' else s
  | [] => []
  end.

Definition trimEnd (s : jsstring) : jsstring := rev (trimStart (rev s)).

(** [s.trim()] *)
Definition trim (s : jsstring) : jsstring := trimEnd (trimStart s).

(** [s === ''] *)
Definition isEmpty (s : jsstring) : bool :=
  match s with [] => true | _ => false end.

Fixpoint join (sep : jsstring) (parts : list jsstring) : jsstring :=
  match parts with
  | [] => []
  | [p] => p
  | p :: rest => p ++ sep ++ join sep rest
  end.

(** [s.substring(a, b)] for [a <= b]. *)
Definition substring (s : jsstring) (a b : nat) : jsstring :=
  take (b - a) (drop a s).

End Js.
Import Js.

(** ** Regular expressions

    The two patterns of the analyzer use literals, the classes [\s], [\w]
    and [[^)]], sequencing, alternation, an optional group and greedy
    repetition of a class.  [rmatch] is the backtracking matcher of
    ECMAScript restricted to these forms: alternatives are tried left to
    right, repetition takes the longest run first and gives characters back
    one at a time, and the continuation [k] is the rest of the pattern. *)

Module Regex.

Inductive cclass : Type :=
| Space              (* \s *)
| Word               (* \w *)
| NotRParen.         (* [^)] *)

Definition cclass_mem (p : cclass) (c : Z) : bool :=
  match p with
  | Space => isWhiteSpace c
  | Word => isWordChar c
  | NotRParen => negb (c =? 41)
  end.

Inductive regex : Type :=
| REps
| RChar (c : Z)
| RClass (p : cclass)
| RSeq (r1 r2 : regex)
| RAlt (r1 r2 : regex)
| ROpt (r : regex)
| RStar (p : cclass).

Definition RPlus (p : cclass) : regex := RSeq (RClass p) (RStar p).

Definition RLit (s : string) : regex :=
  fold_right (fun c r => RSeq (RChar c) r) REps (u16 s).

Fixpoint rmatch {A : Type} (r : regex) (s : jsstring)
         (k : jsstring -> option A) : option A :=
  match r with
  | REps => k s
  | RChar c =>
      match s with
      | x :: s' => if x =? c then k s' else None
      | [] => None
      end
  | RClass p =>
      match s with
      | x :: s' => if cclass_mem p x then k s' else None
      | [] => None
      end
  | RSeq r1 r2 => rmatch r1 s (fun s' => rmatch r2 s' k)
  | RAlt r1 r2 =>
      match rmatch r1 s k with
      | Some a => Some a
      | None => rmatch r2 s k
      end
  | ROpt r1 =>
      match rmatch r1 s k with
      | Some a => Some a
      | None => k s
      end
  | RStar p =>
      (fix star (s : jsstring) : option A :=
         match s with
         | x :: s' =>
             if cclass_mem p x
             then match star s' with
                  | Some a => Some a
                  | None => k s
                  end
             else k s
         | [] => k s
         end) s
  end.

(** The group shared by both patterns:
    [(function\s+\w+|const\s+\w+\s*=\s*(?:async\s+)?(?:function|\([^)]*\)\s*=>)|\w+\s*\([^)]*\)\s*\{)] *)
Definition parenList : regex :=
  RSeq (RChar 40) (RSeq (RStar NotRParen) (RChar 41)).

Fixpoint RSeqs (rs : list regex) : regex :=
  match rs with
  | [] => REps
  | [r] => r
  | r :: rest => RSeq r (RSeqs rest)
  end.

(** [function\s+\w+] *)
Definition declAlt : regex :=
  RSeqs [RLit "function"; RPlus Space; RPlus Word].

(** [const\s+\w+\s*=\s*(?:async\s+)?(?:function|\([^)]*\)\s*=>)] *)
Definition bindingAlt : regex :=
  RSeqs [RLit "const"; RPlus Space; RPlus Word; RStar Space; RChar 61;
         RStar Space; ROpt (RSeq (RLit "async") (RPlus Space));
         RAlt (RLit "function")
              (RSeqs [parenList; RStar Space; RLit "=>"])].

(** [\w+\s*\([^)]*\)\s*\{] *)
Definition callBlockAlt : regex :=
  RSeqs [RPlus Word; RStar Space; parenList; RStar Space; RChar 123].

Definition functionGroup : regex :=
  RAlt declAlt (RAlt bindingAlt callBlockAlt).

(** [\b] between the code unit before the position and the one at it. *)
Definition wordBoundary (prev next : option Z) : bool :=
  let w (o : option Z) := match o with Some c => isWordChar c | None => false end in
  negb (eqb (w prev) (w next)).

Definition matchesHere (r : regex) (s : jsstring) : bool :=
  match rmatch r s (fun _ => Some tt) with Some _ => true | None => false end.

(** [/\b(...)/.test(text)], searching every start index from the left;
    [prev] is the code unit before the current index. *)
Fixpoint testFrom (prev : option Z) (s : jsstring) : bool :=
  (wordBoundary prev (head s) && matchesHere functionGroup s)
  || match s with
     | c :: s' => testFrom (Some c) s'
     | [] => false
     end.

(** [functionRegex.test(text)] of [getFunctionAtPosition]. *)
Definition functionRegex_test (text : jsstring) : bool := testFrom None text.

(** The pattern of [updateInlineDecorations],
    [/^[\s]*(...)/gm]: [^] holds at index 0 and after a line terminator. *)
Definition lineStart (prev : option Z) : bool :=
  match prev with Some c => isLineTerminator c | None => true end.

Definition functionRegexGM : regex := RSeq (RStar Space) functionGroup.

(** The [while ((match = functionRegex.exec(text)) !== null)] loop:
    the list of [match.index] values, in the order the loop sees them.
    After a match of length [n] at index [idx] the next search starts at
    [lastIndex = idx + n]; [skip] counts the code units still to pass
    before that index is reached. *)
Fixpoint execAll (prev : option Z) (idx skip : nat) (s : jsstring) : list nat :=
  match s with
  | [] => []
  | c :: s' =>
      match skip with
      | S n => execAll (Some c) (S idx) n s'
      | O =>
          if lineStart prev then
            match rmatch functionRegexGM s (fun rest => Some rest) with
            | Some rest =>
                idx :: execAll (Some c) (S idx)
                         (length s - length rest - 1) s'
            | None => execAll (Some c) (S idx) 0 s'
            end
          else execAll (Some c) (S idx) 0 s'
      end
  end.

Definition matchIndices (text : jsstring) : list nat := execAll None 0%nat 0%nat text.

End Regex.
Import Regex.

(** ** Values, errors and results *)

(** A run-time value as [JSON.parse] produces it ([any] in the source);
    numbers are rationals, property names and strings are code-unit
    sequences.  [ComplexityResult] is a compile-time interface only: at run
    time [response.data as ComplexityResult] is whatever value arrived. *)
Inductive JsValue : Type :=
| JUndefined
| JNull
| JBool (b : bool)
| JNum (q : Q)
| JStr (s : jsstring)
| JArr (items : list JsValue)
| JObj (fields : list (jsstring * JsValue)).

Record AxiosResponse : Type := mkResponse {
  status : Z;
  data : JsValue
}.

(** What a rejected [axios] promise carries: [error.message] and, when the
    server answered, [error.response]. *)
Record AxiosError : Type := mkAxiosError {
  message : jsstring;
  response : option AxiosResponse
}.

Inductive JsError : Type :=
| EAxios (e : AxiosError)
| ETypeError            (* property access on null or undefined, call of a non-function *)
| EIllegalLine.         (* [lineAt] outside the document *)

(** The outcome of running a piece of code: a value, or a thrown error. *)
Inductive Exc (A : Type) : Type :=
| Returned (a : A)
| Threw (e : JsError).
Arguments Returned {A} a.
Arguments Threw {A} e.

Definition exc_bind {A B : Type} (x : Exc A) (f : A -> Exc B) : Exc B :=
  match x with
  | Returned a => f a
  | Threw e => Threw e
  end.

(** ** Documents *)

Module Doc.

Inductive EndOfLine : Type := LF | CRLF.

Definition eolText (e : EndOfLine) : jsstring :=
  match e with LF => [10] | CRLF => [13; 10] end.

(** A [vscode.TextDocument]: its lines without terminators, and the
    terminator that joins them. *)
Record TextDocument : Type := mkDocument {
  lines : list jsstring;
  eol : EndOfLine
}.

Record Position : Type := mkPosition { line : nat; character : nat }.

Record Range : Type := mkRange { start : Position; end_ : Position }.

Definition lineCount (d : TextDocument) : nat := length (lines d).

(** [document.lineAt(i).text]; the host throws outside the document. *)
Definition lineAt (d : TextDocument) (i : nat) : Exc jsstring :=
  match lines d !! i with
  | Some t => Returned t
  | None => Threw EIllegalLine
  end.

(** [document.getText()] *)
Definition getText (d : TextDocument) : jsstring :=
  join (eolText (eol d)) (lines d).

(** [document.offsetAt(position)], the position clamped into the document. *)
Fixpoint offsetIn (ls : list jsstring) (eolLen : nat) (ln ch : nat) : nat :=
  match ls with
  | [] => 0
  | [l] => match ln with O => Nat.min ch (length l) | S _ => length l end
  | l :: rest =>
      match ln with
      | O => Nat.min ch (length l)
      | S ln' => (length l + eolLen + offsetIn rest eolLen ln' ch)%nat
      end
  end.

Definition offsetAt (d : TextDocument) (p : Position) : nat :=
  offsetIn (lines d) (length (eolText (eol d))) (line p) (character p).

(** [document.getText(range)] *)
Definition getTextIn (d : TextDocument) (r : Range) : jsstring :=
  substring (getText d) (offsetAt d (start r)) (offsetAt d (end_ r)).

(** [document.positionAt(offset)]: an offset inside a line terminator
    belongs to the end of the line it terminates; an offset past the end
    is the end of the last line. *)
Fixpoint positionIn (ls : list jsstring) (eolLen : nat) (ln : nat)
         (offset : nat) : Position :=
  match ls with
  | [] => mkPosition ln 0
  | [l] => mkPosition ln (Nat.min offset (length l))
  | l :: rest =>
      if (offset <? length l + eolLen)%nat
      then mkPosition ln (Nat.min offset (length l))
      else positionIn rest eolLen (S ln) (offset - (length l + eolLen))
  end.

Definition positionAt (d : TextDocument) (offset : nat) : Position :=
  positionIn (lines d) (length (eolText (eol d))) 0 offset.

End Doc.
Import Doc.

(** ** The function locator *)

(** The inner [for (const char of lineText)] loop of the forward scan:
    either the [return] inside it is taken ([Closed]) or the line ends with
    the brace count it has reached ([Open]).  [later] is [i > startLine].
    The source iterates code points and the model code units; the two
    halves of a surrogate pair are no braces, so the count and the place of
    the [return] are the same. *)
Inductive LineScan : Type :=
| Closed
| Open (braceCount : Z).

Definition braceStep (braceCount : Z) (char : Z) : Z :=
  let c1 := if char =? 123 then braceCount + 1 else braceCount in
  if char =? 125 then c1 - 1 else c1.

Fixpoint scanChars (lineText : jsstring) (braceCount : Z) (later : bool) : LineScan :=
  match lineText with
  | [] => Open braceCount
  | char :: rest =>
      let c := braceStep braceCount char in
      if (c =? 0) && later then Closed else scanChars rest c later
  end.

(** [for (let i = startLine; i < document.lineCount; i++)] over the lines
    from [i] on: the [endLine] at which the scan returns, if it does. *)
Fixpoint findEnd (ls : list jsstring) (i startLine : nat) (braceCount : Z) : option nat :=
  match ls with
  | [] => None
  | lineText :: rest =>
      match scanChars lineText braceCount (startLine <? i)%nat with
      | Closed => Some i
      | Open c => findEnd rest (S i) startLine c
      end
  end.

(** [for (let i = position.line; i >= 0; i--)]: the line the upward scan
    stops at with [foundStart], or none when it breaks or runs out. *)
Fixpoint findStart (d : TextDocument) (positionLine : nat) (i : nat) : Exc (option nat) :=
  exc_bind (lineAt d i) (fun lineText =>
    if functionRegex_test lineText then Returned (Some i)
    else if (i <? positionLine)%nat && isEmpty (trim lineText) then Returned None
    else match i with
         | O => Returned None
         | S i' => findStart d positionLine i'
         end).

Definition getFunctionAtPosition (document : TextDocument) (position : Position)
  : Exc (option Range) :=
  exc_bind (lineAt document (line position)) (fun text =>
    if negb (functionRegex_test text) then Returned None
    else
      exc_bind (findStart document (line position) (line position)) (fun found =>
        match found with
        | None => Returned None
        | Some startLine =>
            match findEnd (drop startLine (lines document)) startLine startLine 0 with
            | Some endLine =>
                exc_bind (lineAt document endLine) (fun endText =>
                  Returned (Some (mkRange (mkPosition startLine 0)
                                          (mkPosition endLine (length endText)))))
            | None => Returned None
            end
        end)).

(** ** The cache key *)

(** [ToInt32]: the value of a number as a signed 32-bit integer. *)
Definition toInt32 (z : Z) : Z := (z + 2147483648) mod 4294967296 - 2147483648.

(** [x << n] and [x & y] on numbers: both operands pass through [ToInt32]
    and so does the result. *)
Definition int32_shl (x n : Z) : Z := toInt32 (Z.shiftl (toInt32 x) n).
Definition int32_and (x y : Z) : Z := toInt32 (Z.land (toInt32 x) (toInt32 y)).

(** One round of the loop body:
    [hash = ((hash << 5) - hash) + char; hash = hash & hash].  The
    subtraction and the addition are on numbers of magnitude below 2^53,
    where double arithmetic is exact. *)
Definition hashStep (hash char : Z) : Z :=
  let hash1 := (int32_shl hash 5 - hash) + char in
  int32_and hash1 hash1.

Definition hashCode (code : jsstring) : Z := fold_left hashStep code 0.

(** [getCacheKey(code)] is [hash.toString()]. *)
Definition getCacheKey (code : jsstring) : string := pretty (hashCode code).

(** ** The cache *)

Record CachedComplexity : Type := mkCached {
  result : JsValue;
  code : jsstring;
  timestamp : Z
}.

(** [CACHE_DURATION = 5 * 60 * 1000] *)
Definition CACHE_DURATION : Z := 5 * 60 * 1000.

(** [cached && Date.now() - cached.timestamp < this.CACHE_DURATION] *)
Definition fresh (cached : CachedComplexity) (now : Z) : bool :=
  now - timestamp cached <? CACHE_DURATION.

(** The lookup both readers of the cache perform on a function's text:
    [this.complexityCache.get(this.getCacheKey(functionCode))] followed by
    the freshness test; [now] is the reading of [Date.now()]. *)
Definition cacheGet (cache : gmap string CachedComplexity) (functionCode : jsstring)
           (now : Z) : option JsValue :=
  match cache !! getCacheKey functionCode with
  | Some cached => if fresh cached now then Some (result cached) else None
  | None => None
  end.

(** [this.complexityCache.set(cacheKey, { result, code: functionCode,
    timestamp: Date.now() })] *)
Definition cachePut (cache : gmap string CachedComplexity) (functionCode : jsstring)
           (v : JsValue) (now : Z) : gmap string CachedComplexity :=
  <[getCacheKey functionCode := mkCached v functionCode now]> cache.

(** ** Property access on run-time values *)

Definition nullish (v : JsValue) : bool :=
  match v with JUndefined | JNull => true | _ => false end.

(** The value of the property [name] in the fields of an object. *)
Fixpoint assoc (name : jsstring) (fields : list (jsstring * JsValue)) : JsValue :=
  match fields with
  | [] => JUndefined
  | (k, v) :: rest => if decide (k = name) then v else assoc name rest
  end.

(** [v.name] for the property names the extension reads (none of them is a
    property of a string, a number, a boolean or an array): a TypeError on
    [null] and [undefined], the field of an object, [undefined] otherwise. *)
Definition getProp (v : JsValue) (name : string) : Exc JsValue :=
  match v with
  | JUndefined | JNull => Threw ETypeError
  | JObj fields => Returned (assoc (u16 name) fields)
  | _ => Returned JUndefined
  end.

(** [v?.name] *)
Definition getPropOpt (v : JsValue) (name : string) : JsValue :=
  match getProp v name with
  | Returned x => x
  | Threw _ => JUndefined
  end.

(** ToBoolean *)
Definition truthy (v : JsValue) : bool :=
  match v with
  | JUndefined | JNull => false
  | JBool b => b
  | JNum q => negb (Qeq_bool q 0)
  | JStr s => negb (isEmpty s)
  | JArr _ | JObj _ => true
  end.

(** [v === 'literal'] *)
Definition isStr (v : JsValue) (literal : string) : bool :=
  match v with
  | JStr s => bool_decide (s = u16 literal)
  | _ => false
  end.

(** [Object.values(v)] for a value that is not null or undefined. *)
Definition objectValues (v : JsValue) : list JsValue :=
  match v with
  | JObj fields => List.map snd fields
  | JArr items => items
  | JStr s => List.map (fun c => JStr [c]) s
  | _ => []
  end.

(** ** Effects *)

Inductive Icon : Type := IconCheck | IconWarning | IconAlert | IconBulb.

(** The parts of a template literal, in order.  Conversions of a run-time
    value to text ([${v}], [toUpperCase], [toFixed]) are kept as the value
    they are applied to. *)
Inductive Piece : Type :=
| Lit (s : string)
| Glyph (i : Icon)
| Interp (v : JsValue)
| Upper (s : jsstring)
| PercentFixed (digits : nat) (confidence : JsValue)
| Newline.

Record DecorationOptions : Type := mkDecoration {
  range : Range;
  contentText : list Piece;
  color : string
}.

(** What the extension does to the outside, in the order it does it.
    [HttpPost] is the [axios.post] of [{ code }] with its URL and its
    Authorization header. *)
Inductive Effect : Type :=
| HttpPost (url : string) (authorization : string) (body : jsstring)
| ConsoleError (label : string) (error : JsError)
| ShowErrorMessage (text : list Piece)
| ShowInformationMessage (text : list Piece) (items : list string)
| WithProgress (title : string)
| SetDecorations (editor : nat) (decorations : list DecorationOptions)
| UnhandledRejection (error : JsError).

(** How one [axios.post] settles. *)
Inductive AxiosOutcome : Type :=
| Resolved (r : AxiosResponse)
| Rejected (e : AxiosError).

(** A pending [setTimeout]: when it is due and the editor its callback
    closed over. *)
Record Timer : Type := mkTimer { due : Z; timerEditor : nat }.

(** What the extension cannot influence: the readings of [Date.now()], one
    per call, and how the service settles the n-th request. *)
Record Env : Type := mkEnv {
  clock : nat -> Z;
  service : nat -> jsstring -> AxiosOutcome
}.

(** The analyzer's fields ([inlineEnabled], [complexityCache]) together
    with the host state it reads and writes: the two settings, the open
    documents by editor, the active editor and its selection, the pending
    timers and the timer clock [time] in milliseconds, the number of clock
    readings and of requests made so far, and the effects so far.  A
    handler runs to its end in one go: an [await] resumes with the outcome
    of what it awaited. *)
Record World : Type := mkWorld {
  inlineEnabled : bool;
  complexityCache : gmap string CachedComplexity;
  apiEndpoint : string;
  apiKey : string;
  documents : nat -> TextDocument;
  activeTextEditor : option nat;
  selection : Range;
  timers : list Timer;
  time : Z;
  clockReads : nat;
  requests : nat;
  trace : list Effect
}.

Definition withTrace (tr : list Effect) (w : World) : World :=
  mkWorld (inlineEnabled w) (complexityCache w) (apiEndpoint w) (apiKey w)
          (documents w) (activeTextEditor w) (selection w) (timers w)
          (time w) (clockReads w) (requests w) tr.

Definition withClockReads (n : nat) (w : World) : World :=
  mkWorld (inlineEnabled w) (complexityCache w) (apiEndpoint w) (apiKey w)
          (documents w) (activeTextEditor w) (selection w) (timers w)
          (time w) n (requests w) (trace w).

Definition withRequests (n : nat) (w : World) : World :=
  mkWorld (inlineEnabled w) (complexityCache w) (apiEndpoint w) (apiKey w)
          (documents w) (activeTextEditor w) (selection w) (timers w)
          (time w) (clockReads w) n (trace w).

Definition withCache (c : gmap string CachedComplexity) (w : World) : World :=
  mkWorld (inlineEnabled w) c (apiEndpoint w) (apiKey w)
          (documents w) (activeTextEditor w) (selection w) (timers w)
          (time w) (clockReads w) (requests w) (trace w).

Definition withTimers (ts : list Timer) (w : World) : World :=
  mkWorld (inlineEnabled w) (complexityCache w) (apiEndpoint w) (apiKey w)
          (documents w) (activeTextEditor w) (selection w) ts
          (time w) (clockReads w) (requests w) (trace w).

Definition atTime (t : Z) (w : World) : World :=
  mkWorld (inlineEnabled w) (complexityCache w) (apiEndpoint w) (apiKey w)
          (documents w) (activeTextEditor w) (selection w) (timers w)
          t (clockReads w) (requests w) (trace w).

Definition withDocument (id : nat) (content : TextDocument) (w : World) : World :=
  mkWorld (inlineEnabled w) (complexityCache w) (apiEndpoint w) (apiKey w)
          (fun i => if decide (i = id) then content else documents w i)
          (activeTextEditor w) (selection w) (timers w)
          (time w) (clockReads w) (requests w) (trace w).

Definition withActiveEditor (editor : option nat) (w : World) : World :=
  mkWorld (inlineEnabled w) (complexityCache w) (apiEndpoint w) (apiKey w)
          (documents w) editor (selection w) (timers w)
          (time w) (clockReads w) (requests w) (trace w).

Definition M (A : Type) : Type := Env -> World -> Exc A * World.

Definition ret {A : Type} (a : A) : M A := fun _ w => (Returned a, w).

Definition throw {A : Type} (e : JsError) : M A := fun _ w => (Threw e, w).

Definition bind {A B : Type} (m : M A) (f : A -> M B) : M B :=
  fun env w =>
    match m env w with
    | (Returned a, w') => f a env w'
    | (Threw e, w') => (Threw e, w')
    end.

Declare Scope m_scope.
Delimit Scope m_scope with M.
Notation "x <- m ;; k" := (bind m (fun x => k))
  (at level 100, m at next level, right associativity) : m_scope.
Notation "m ;;; k" := (bind m (fun _ => k))
  (at level 100, right associativity) : m_scope.

Definition tryCatch {A : Type} (m : M A) (handler : JsError -> M A) : M A :=
  fun env w =>
    match m env w with
    | (Returned a, w') => (Returned a, w')
    | (Threw e, w') => handler e env w'
    end.

Definition lift {A : Type} (x : Exc A) : M A := fun _ w => (x, w).

Definition get : M World := fun _ w => (Returned w, w).

Definition emit (e : Effect) : M unit :=
  fun _ w => (Returned tt, withTrace (trace w ++ [e]) w).

(** [Date.now()] *)
Definition dateNow : M Z :=
  fun env w =>
    (Returned (clock env (clockReads w)), withClockReads (S (clockReads w)) w).

Definition setCache (c : gmap string CachedComplexity) : M unit :=
  fun _ w => (Returned tt, withCache c w).

(** Timers are kept in the order they fire: by due time, and among equal
    due times in the order they were set. *)
Fixpoint insertTimer (t : Timer) (ts : list Timer) : list Timer :=
  match ts with
  | [] => [t]
  | t' :: rest => if due t <? due t' then t :: ts else t' :: insertTimer t rest
  end.

(** [setTimeout(() => this.updateInlineDecorations(editor), delay)] *)
Definition setTimeout (editor : nat) (delay : Z) : M unit :=
  fun _ w =>
    (Returned tt,
     withTimers (insertTimer (mkTimer (time w + delay) editor) (timers w)) w).

(** [await axios.post(...)]: the request goes out and settles. *)
Definition axiosPost (url authorization : string) (body : jsstring) : M AxiosResponse :=
  fun env w =>
    let w' :=
      withRequests (S (requests w))
        (withTrace (trace w ++ [HttpPost url authorization body]) w) in
    match service env (requests w) body with
    | Resolved r => (Returned r, w')
    | Rejected e => (Threw (EAxios e), w')
    end.

Local Open Scope m_scope.

(** ** The classifier client ([apiClient.ts]) *)

(** [error.response?.data?.detail || error.message].  Only axios errors
    reach the [catch] of [analyzeCode]; for the other errors the message
    stands. *)
Definition errorMsg (error : JsError) : JsValue :=
  match error with
  | EAxios e =>
      let detail :=
        match response e with
        | Some r => getPropOpt (data r) "detail"
        | None => JUndefined
        end in
      if truthy detail then detail else JStr (message e)
  | ETypeError => JStr (u16 "TypeError")
  | EIllegalLine => JStr (u16 "Illegal value for `line`")
  end.

Definition analyzeCode (code : jsstring) : M JsValue :=
  w <- get ;;
  let apiUrl := apiEndpoint w in
  let apiKey := apiKey w in
  tryCatch
    (response <- axiosPost (apiUrl +:+ "/analyze") ("Bearer " +:+ apiKey) code ;;
     ret (data response))
    (fun error =>
       emit (ConsoleError "API Error:" error) ;;;
       emit (ShowErrorMessage
               [Lit "API Error: "; Interp (errorMsg error);
                Lit ". Check your API key in settings."]) ;;;
       throw error).

(** ** The analyzer ([complexityAnalyzer.ts]) *)

(** [result.complexity === 'simple' ? a : result.complexity === 'moderate' ? b : c] *)
Definition byComplexity {A : Type} (complexity : JsValue) (a b c : A) : A :=
  if isStr complexity "simple" then a
  else if isStr complexity "moderate" then b else c.

(** [s.toUpperCase()]: a TypeError unless [s] is a string. *)
Definition toUpperCase (v : JsValue) : Exc Piece :=
  match v with
  | JStr s => Returned (Upper s)
  | _ => Threw ETypeError
  end.

(** [result.suggestions && Object.values(result.suggestions).length > 0
     ? Object.values(result.suggestions) : null] *)
Definition suggestionsOf (result : JsValue) : Exc (list JsValue) :=
  exc_bind (getProp result "suggestions") (fun suggestions =>
    Returned (if truthy suggestions then objectValues suggestions else [])).

Definition metricsText (result : JsValue) : Exc (list Piece) :=
  exc_bind (getProp result "metrics") (fun metrics =>
  exc_bind (getProp metrics "loc") (fun loc =>
  exc_bind (getProp metrics "cyclomatic") (fun cyclomatic =>
  exc_bind (getProp metrics "nesting") (fun nesting =>
    Returned [Lit "LOC: "; Interp loc; Lit ", Cyclomatic: "; Interp cyclomatic;
              Lit ", Nesting: "; Interp nesting])))).

Definition showAnalysisResult (result : JsValue) : M unit :=
  complexity <- lift (getProp result "complexity") ;;
  let icon := byComplexity complexity IconCheck IconWarning IconWarning in
  metrics <- lift (metricsText result) ;;
  upper <- lift (toUpperCase complexity) ;;
  confidence <- lift (getProp result "confidence") ;;
  let message :=
    [Glyph icon; Lit " Complexity: "; upper; Lit " (Confidence: ";
     PercentFixed 1 confidence; Lit "%)"; Newline; Newline] ++ metrics in
  suggestions <- lift (suggestionsOf result) ;;
  emit (ShowInformationMessage message
          ((if match suggestions with [] => true | _ => false end then [] else ["View Suggestions"%string])
           ++ ["Dismiss"%string])).

(** The content of a [vscode.Hover]: the markdown appended, in order. *)
Definition Hover : Type := list Piece.

Definition createHoverMarkdown (result : JsValue) : Exc Hover :=
  exc_bind (getProp result "complexity") (fun complexity =>
  let icon := byComplexity complexity IconCheck IconWarning IconAlert in
  exc_bind (toUpperCase complexity) (fun upper =>
  exc_bind (getProp result "confidence") (fun confidence =>
  exc_bind (getProp result "metrics") (fun metrics =>
  exc_bind (getProp metrics "loc") (fun loc =>
  exc_bind (getProp metrics "cyclomatic") (fun cyclomatic =>
  exc_bind (getProp metrics "nesting") (fun nesting =>
  exc_bind (suggestionsOf result) (fun suggestionList =>
    Returned
      ([Lit "**"; Glyph icon; Lit " "; upper; Lit "** ";
        Lit "("; PercentFixed 0 confidence; Lit "% confident)"; Newline; Newline;
        Lit "LOC: "; Interp loc; Lit " | ";
        Lit "Cyclomatic: "; Interp cyclomatic; Lit " | ";
        Lit "Nesting: "; Interp nesting; Newline]
       ++ match suggestionList with
          | first :: _ => [Newline; Glyph IconBulb; Lit " *"; Interp first; Lit "*"]
          | [] => []
          end))))))))).

Definition createInlineDecoration (range : Range) (result : JsValue)
  : Exc DecorationOptions :=
  exc_bind (getProp result "complexity") (fun complexity =>
    let icon := byComplexity complexity IconCheck IconWarning IconAlert in
    Returned
      (mkDecoration
         (mkRange (start range) (start range))
         [Lit " "; Glyph icon; Lit " "; Interp complexity]
         (byComplexity complexity "#22c55e" "#f59e0b" "#ef4444")%string)).

(** The read both [provideHover] and [updateInlineDecorations] make:
    [const cached = this.complexityCache.get(cacheKey)] and then
    [cached && Date.now() - cached.timestamp < this.CACHE_DURATION];
    the clock is read only when an entry is there. *)
Definition lookupCached (functionCode : jsstring) : M (option JsValue) :=
  w <- get ;;
  match complexityCache w !! getCacheKey functionCode with
  | Some _ =>
      now <- dateNow ;;
      ret (cacheGet (complexityCache w) functionCode now)
  | None => ret None
  end.

(** The write of [provideHover]. *)
Definition storeResult (functionCode : jsstring) (result : JsValue) : M unit :=
  now <- dateNow ;;
  w <- get ;;
  setCache (cachePut (complexityCache w) functionCode result now).

Definition provideHover (document : TextDocument) (position : Position)
  : M (option Hover) :=
  functionRange <- lift (getFunctionAtPosition document position) ;;
  match functionRange with
  | None => ret None
  | Some functionRange =>
      let functionCode := getTextIn document functionRange in
      cached <- lookupCached functionCode ;;
      match cached with
      | Some result =>
          hover <- lift (createHoverMarkdown result) ;;
          ret (Some hover)
      | None =>
          tryCatch
            (result <- analyzeCode functionCode ;;
             storeResult functionCode result ;;;
             hover <- lift (createHoverMarkdown result) ;;
             ret (Some hover))
            (fun error =>
               emit (ConsoleError "Failed to analyze function on hover:" error) ;;;
               ret None)
      end
  end.

(** The body of the [while] loop of [updateInlineDecorations], once per
    [match.index]. *)
Fixpoint collectDecorations (document : TextDocument) (indices : list nat)
         (decorations : list DecorationOptions) : M (list DecorationOptions) :=
  match indices with
  | [] => ret decorations
  | index :: rest =>
      let startPos := positionAt document index in
      functionRange <- lift (getFunctionAtPosition document startPos) ;;
      decorations' <-
        match functionRange with
        | Some functionRange =>
            let functionCode := getTextIn document functionRange in
            cached <- lookupCached functionCode ;;
            match cached with
            | Some result =>
                decoration <- lift (createInlineDecoration functionRange result) ;;
                ret (decorations ++ [decoration])
            | None => ret decorations
            end
        | None => ret decorations
        end ;;
      collectDecorations document rest decorations'
  end.

Definition updateInlineDecorations (editor : nat) : M unit :=
  w <- get ;;
  if negb (inlineEnabled w) then ret tt
  else
    let document := documents w editor in
    let text := getText document in
    decorations <- collectDecorations document (matchIndices text) [] ;;
    emit (SetDecorations editor decorations).

(** A promise nobody awaits: a rejection surfaces as unhandled. *)
Definition detached (task : M unit) : M unit :=
  tryCatch task (fun error => emit (UnhandledRejection error)).

(** [selection.isEmpty] *)
Definition isEmptyRange (r : Range) : bool :=
  bool_decide (line (start r) = line (end_ r)
               /\ character (start r) = character (end_ r)).

Definition analyzeSelection : M unit :=
  w <- get ;;
  match activeTextEditor w with
  | None => emit (ShowErrorMessage [Lit "No active editor found"])
  | Some editor =>
      let selection := selection w in
      let document := documents w editor in
      let code :=
        if isEmptyRange selection then getText document
        else getTextIn document selection in
      if isEmpty (trim code)
      then emit (ShowErrorMessage [Lit "No code selected"])
      else
        emit (WithProgress "Analyzing code complexity...") ;;;
        detached (result <- analyzeCode code ;; showAnalysisResult result)
  end.

(** The listener of [vscode.workspace.onDidChangeTextDocument]. *)
Definition onDidChangeTextDocument (eventDocument : nat) : M unit :=
  w <- get ;;
  match activeTextEditor w with
  | Some editor =>
      if bool_decide (eventDocument = editor) && inlineEnabled w
      then setTimeout editor 500
      else ret tt
  | None => ret tt
  end.

(** The listener of [vscode.window.onDidChangeActiveTextEditor]. *)
Definition onDidChangeActiveTextEditor (editor : option nat) : M unit :=
  w <- get ;;
  match editor with
  | Some editor =>
      if inlineEnabled w then detached (updateInlineDecorations editor) else ret tt
  | None => ret tt
  end.

(** ** The host's event loop *)

Inductive HostEvent : Type :=
| TextDocumentChanged (document : nat) (content : TextDocument)
| ActiveEditorChanged (editor : option nat).

Definition runListener (listener : M unit) (env : Env) (w : World) : World :=
  snd (listener env w).

(** The timers of [queue] that are due by [t] fire in order; each firing
    removes the timer and runs its callback,
    [() => this.updateInlineDecorations(editor)]. *)
Fixpoint fireTimers (queue : list Timer) (t : Z) (env : Env) (w : World) : World :=
  match queue with
  | [] => w
  | tm :: rest =>
      if due tm <=? t
      then fireTimers rest t env
             (runListener (detached (updateInlineDecorations (timerEditor tm))) env
                (atTime (due tm) (withTimers rest w)))
      else w
  end.

Definition advanceTo (t : Z) (env : Env) (w : World) : World :=
  atTime t (fireTimers (timers w) t env w).

Definition dispatch (e : HostEvent) (env : Env) (w : World) : World :=
  match e with
  | TextDocumentChanged id content =>
      runListener (onDidChangeTextDocument id) env (withDocument id content w)
  | ActiveEditorChanged editor =>
      runListener (onDidChangeActiveTextEditor editor) env (withActiveEditor editor w)
  end.

(** The host delivers the timed events in order, firing the timers that
    fall due before each, and then lets time run on to [horizon]. *)
Fixpoint runHost (events : list (Z * HostEvent)) (horizon : Z) (env : Env)
         (w : World) : World :=
  match events with
  | [] => advanceTo horizon env w
  | (t, e) :: rest => runHost rest horizon env (dispatch e env (advanceTo t env w))
  end.

(** ** Notions the properties are stated with *)

(** The running brace count over a text, started at [c0]. *)
Definition braceCountAfter (c0 : Z) (text : jsstring) : Z := fold_left braceStep text c0.

(** The count, started at zero at line [startLine], as it stands at the
    beginning of line [i]. *)
Definition countBefore (d : TextDocument) (startLine i : nat) : Z :=
  braceCountAfter 0 (concat (take (i - startLine) (drop startLine (lines d)))).

(** The count is zero after some character of [lineText]. *)
Definition zeroWithin (c0 : Z) (lineText : jsstring) : bool :=
  existsb (fun n => braceCountAfter c0 (take n lineText) =? 0)
          (seq 1 (length lineText)).

(** The running count started at [startLine] is back at zero somewhere on
    line [i]. *)
Definition returnsToZeroOn (d : TextDocument) (startLine i : nat) : bool :=
  match lines d !! i with
  | Some lineText => zeroWithin (countBefore d startLine i) lineText
  | None => false
  end.

(** The first line strictly after [startLine] on which the running count
    returns to zero. *)
Definition closingLine (d : TextDocument) (startLine : nat) : option nat :=
  List.find (returnsToZeroOn d startLine)
            (seq (S startLine) (lineCount d - S startLine)).

(** A function whose closing brace is missing: the count never returns to
    zero up to the end of the document. *)
Definition unterminated (d : TextDocument) (startLine : nat) : bool :=
  forallb (fun i => negb (returnsToZeroOn d startLine i))
          (seq (S startLine) (lineCount d - S startLine)).

(** The running count, started at [c], comes back to zero somewhere in
    [text] after having been away from zero; [left] records that it has
    been away before [text]. *)
Fixpoint returnsToZero (c : Z) (left : bool) (text : jsstring) : bool :=
  match text with
  | [] => false
  | char :: rest =>
      let away := left || negb (c =? 0) in
      let c' := braceStep c char in
      if (c' =? 0) && away then true else returnsToZero c' away rest
  end.

(** The count started at zero at [startLine] never returns to zero by the
    end of the document. *)
Definition neverReturnsToZero (d : TextDocument) (startLine : nat) : bool :=
  negb (returnsToZero 0 false (concat (drop startLine (lines d)))).

(** The span the description of the locator assigns to a position: the
    upward scan for the nearest start line, then the forward scan for the
    closing line. *)
Definition describedSpan (d : TextDocument) (p : Position) : option (nat * nat) :=
  match findStart d (line p) (line p) with
  | Returned (Some startLine) =>
      match closingLine d startLine with
      | Some endLine => Some (startLine, endLine)
      | None => None
      end
  | _ => None
  end.

(** A position inside a well-nested function: the span described for it
    exists and reaches down to the position's line. *)
Definition insideFunction (d : TextDocument) (p : Position) : bool :=
  match describedSpan d p with
  | Some (_, endLine) => (line p <=? endLine)%nat
  | None => false
  end.

(** The text is empty or consists of white space only. *)
Definition whitespaceOnly (text : jsstring) : bool := forallb isWhiteSpace text.

(** Two texts differ only in white space: without their white space they
    are the same text. *)
Definition stripWhiteSpace (text : jsstring) : jsstring :=
  List.filter (fun c => negb (isWhiteSpace c)) text.

Definition differOnlyInWhiteSpace (c1 c2 : jsstring) : Prop :=
  c1 <> c2 /\ stripWhiteSpace c1 = stripWhiteSpace c2.

(** A ComplexityVerdict as the data model has it: [complexity] one of the
    three levels, [confidence] in [0,1], the five metrics non-negative
    integers, the processing time a non-negative number, the suggestions,
    when present, a mapping to display strings. *)
Definition isNatural (v : JsValue) : bool :=
  match v with
  | JNum q => Qle_bool 0 q && (Zpos (Qden (Qred q)) =? 1)
  | _ => false
  end.

Definition isNonNegative (v : JsValue) : bool :=
  match v with JNum q => Qle_bool 0 q | _ => false end.

Definition isUnitInterval (v : JsValue) : bool :=
  match v with JNum q => Qle_bool 0 q && Qle_bool q 1 | _ => false end.

Definition isLevel (v : JsValue) : bool :=
  isStr v "simple" || isStr v "moderate" || isStr v "complex".

Definition isAdvice (v : JsValue) : bool :=
  match v with
  | JUndefined => true
  | JObj fields =>
      forallb (fun kv => match snd kv with JStr _ => true | _ => false end) fields
  | _ => false
  end.

Definition wellFormedVerdict (v : JsValue) : bool :=
  match v with
  | JObj _ =>
      let metrics := getPropOpt v "metrics" in
      isLevel (getPropOpt v "complexity")
      && isUnitInterval (getPropOpt v "confidence")
      && match metrics with JObj _ => true | _ => false end
      && isNatural (getPropOpt metrics "loc")
      && isNatural (getPropOpt metrics "cyclomatic")
      && isNatural (getPropOpt metrics "nesting")
      && isNatural (getPropOpt metrics "loops")
      && isNatural (getPropOpt metrics "conditionals")
      && isNonNegative (getPropOpt v "processing_time_ms")
      && isAdvice (getPropOpt v "suggestions")
  | _ => false
  end.

Definition isHttpPost (e : Effect) : bool :=
  match e with HttpPost _ _ _ => true | _ => false end.

Definition isNotification (e : Effect) : bool :=
  match e with
  | ShowErrorMessage _ | ShowInformationMessage _ _ => true
  | _ => false
  end.

Definition isSetDecorations (e : Effect) : bool :=
  match e with SetDecorations _ _ => true | _ => false end.

(** Congruence modulo 2^32. *)
Definition cong32 (a b : Z) : Prop := exists k : Z, a - b = k * 4294967296.

(** [w'] is [w] up to the number of clock readings taken. *)
Definition quiet (w w' : World) : Prop := w' = withClockReads (clockReads w') w.

(** A decoration that renders an unexpired cache entry for a span located
    in the document: the span of some match, its text's key in the cache,
    the entry fresh at a reading of the clock. *)
Definition fromFreshHit (env : Env) (cache : gmap string CachedComplexity)
           (document : TextDocument) (decoration : DecorationOptions) : Prop :=
  exists (index : nat) (functionRange : Range) (cached : CachedComplexity) (n : nat),
    In index (matchIndices (getText document))
    /\ getFunctionAtPosition document (positionAt document index)
       = Returned (Some functionRange)
    /\ cache !! getCacheKey (getTextIn document functionRange) = Some cached
    /\ fresh cached (clock env n) = true
    /\ createInlineDecoration functionRange (result cached) = Returned decoration.

(** The request [analyzeCode] sends for a text, and the notification it
    shows when the request fails. *)
Definition analyzeRequest (w : World) (code : jsstring) : Effect :=
  HttpPost (apiEndpoint w +:+ "/analyze") ("Bearer " +:+ apiKey w) code.

Definition apiErrorNotice (error : JsError) : Effect :=
  ShowErrorMessage
    [Lit "API Error: "; Interp (errorMsg error);
     Lit ". Check your API key in settings."].

(** The text [analyzeSelection] works on: the selection, or the whole
    document when the selection is empty. *)
Definition selectedText (w : World) (editor : nat) : jsstring :=
  if isEmptyRange (selection w) then getText (documents w editor)
  else getTextIn (documents w editor) (selection w).

(** An edit of the document shown in [editor]. *)
Definition isEditOf (editor : nat) (e : HostEvent) : Prop :=
  match e with
  | TextDocumentChanged id _ => id = editor
  | ActiveEditorChanged _ => False
  end.

(** The world of a session in which inline analysis is on, [editor] is the
    active editor, every pending timer is due by [horizon], and the passes
    run so far together with the timers still pending number [k]. *)
Definition scheduled (editor : nat) (horizon : Z) (k : nat) (w : World) : Prop :=
  inlineEnabled w = true
  /\ activeTextEditor w = Some editor
  /\ Forall (fun tm => due tm <= horizon) (timers w)
  /\ (length (trace w) + length (timers w) = k)%nat.

(** ** Sample inputs *)

Module Samples.

Definition docAdd : TextDocument :=
  mkDocument [u16 "function add(a, b) {"; u16 "  return a + b;"; u16 "}"] LF.

Definition docOneLine : TextDocument :=
  mkDocument [u16 "function add(a,b){ return a+b; }"] LF.

Definition docOpen : TextDocument :=
  mkDocument [u16 "function open(a) {"; u16 "  if (a) {"; u16 "    go();"; u16 "  }"] LF.

Definition docBlank : TextDocument := mkDocument [u16 "  "; u16 ""] LF.

Definition docAllman : TextDocument :=
  mkDocument [u16 "function f()"; u16 "  {"; u16 "  return 1;"] LF.

Definition noRange : Range := mkRange (mkPosition 0 0) (mkPosition 0 0).

Definition verdict : JsValue :=
  JObj [(u16 "complexity", JStr (u16 "simple"));
        (u16 "confidence", JNum (9 # 10));
        (u16 "metrics",
          JObj [(u16 "loc", JNum 3); (u16 "cyclomatic", JNum 1);
                (u16 "nesting", JNum 0); (u16 "loops", JNum 0);
                (u16 "conditionals", JNum 0)]);
        (u16 "processing_time_ms", JNum (5 # 2))].

Definition networkDown : AxiosError :=
  mkAxiosError (u16 "connect ECONNREFUSED 127.0.0.1:8000") None.

Definition steadyClock (n : nat) : Z := 1000 + 100000 * Z.of_nat n.

Definition envDown : Env := mkEnv steadyClock (fun _ _ => Rejected networkDown).

Definition envHtml : Env :=
  mkEnv steadyClock (fun _ _ => Resolved (mkResponse 200 (JStr (u16 "<html>"))))%Z.

Definition envOk : Env :=
  mkEnv steadyClock (fun _ _ => Resolved (mkResponse 200 verdict)).

Definition world0 (d : TextDocument) : World :=
  mkWorld true ∅ "http://localhost:8000" "" (fun _ => d) (Some 0%nat) noRange
          [] 0 0 0 [].

Definition spacesA : jsstring := [32; 10; 10; 9; 32; 10; 10; 9; 32; 9; 10; 32; 10].
Definition spacesB : jsstring := [9; 32; 9; 32; 9; 32; 9; 10; 10; 10; 9; 10; 32].

Definition codeA : jsstring := u16 "function f() {" ++ spacesA ++ u16 "}".
Definition codeB : jsstring := u16 "function f() {" ++ spacesB ++ u16 "}".

End Samples.

Import Samples.

(** ** The inline-analysis switch and the start of a session *)

Definition withInlineEnabled (b : bool) (w : World) : World :=
  mkWorld b (complexityCache w) (apiEndpoint w) (apiKey w)
          (documents w) (activeTextEditor w) (selection w) (timers w)
          (time w) (clockReads w) (requests w) (trace w).

Definition setInlineEnabled (b : bool) : M unit :=
  fun _ w => (Returned tt, withInlineEnabled b w).

(** [toggleInlineAnalysis()]: the flag is flipped, the new state is
    announced, and the active editor is either redrawn by a pass nobody
    awaits or cleared. *)
Definition toggleInlineAnalysis : M unit :=
  w0 <- get ;;
  setInlineEnabled (negb (inlineEnabled w0)) ;;;
  w <- get ;;
  emit (ShowInformationMessage
          [Lit "Inline analysis ";
           Lit (if inlineEnabled w then "enabled" else "disabled")] []) ;;;
  match activeTextEditor w with
  | Some editor =>
      if inlineEnabled w then detached (updateInlineDecorations editor)
      else emit (SetDecorations editor [])
  | None => ret tt
  end.

(** The last statement of [setupInlineDecorations], after the two
    listeners are registered: the initial decoration. *)
Definition initialDecoration : M unit :=
  w <- get ;;
  match activeTextEditor w with
  | Some editor =>
      if inlineEnabled w then detached (updateInlineDecorations editor) else ret tt
  | None => ret tt
  end.

(** What the user and the host can make the analyzer do. *)
Inductive Action : Type :=
| DoHover (document : TextDocument) (position : Position)
| DoAnalyzeSelection
| DoToggle
| DoPass (editor : nat)
| DoEvents (events : list (Z * HostEvent)) (horizon : Z).

Definition perform (a : Action) (env : Env) (w : World) : World :=
  match a with
  | DoHover document position => snd (provideHover document position env w)
  | DoAnalyzeSelection => snd (analyzeSelection env w)
  | DoToggle => snd (toggleInlineAnalysis env w)
  | DoPass editor => snd (updateInlineDecorations editor env w)
  | DoEvents events horizon => runHost events horizon env w
  end.

Definition performAll (actions : list Action) (env : Env) (w : World) : World :=
  fold_left (fun w a => perform a env w) actions w.

(** ** More notions the properties are stated with *)

(** The hash as a sum over the integers: [c0*31^(n-1) + ... + c(n-1)],
    started from [h]. *)
Definition polyFrom (h : Z) (code : jsstring) : Z :=
  fold_left (fun h c => 31 * h + c) code h.

(** The lines [startLine] to [endLine] in full, joined by the document's
    line terminator. *)
Definition wholeLines (d : TextDocument) (startLine endLine : nat) : jsstring :=
  join (eolText (eol d)) (take (S endLine - startLine) (drop startLine (lines d))).

(** A regular expression that cannot match the empty string. *)
Fixpoint consuming (r : regex) : bool :=
  match r with
  | REps => false
  | RChar _ | RClass _ => true
  | RSeq r1 r2 => consuming r1 || consuming r2
  | RAlt r1 r2 => consuming r1 && consuming r2
  | ROpt _ => false
  | RStar _ => false
  end.

(** A decoration as the pass places it: of zero width, at column 0 of a
    line of the document that matches the start pattern. *)
Definition atDeclaration (d : TextDocument) (decoration : DecorationOptions) : Prop :=
  start (range decoration) = end_ (range decoration)
  /\ character (start (range decoration)) = 0%nat
  /\ exists text,
      lines d !! line (start (range decoration)) = Some text
      /\ functionRegex_test text = true.

Definition isHoverAction (a : Action) : bool :=
  match a with DoHover _ _ => true | _ => false end.

(** A service that answers every request with the JSON value [null], and a
    world whose cache holds a verdict stamped at time 1000. *)
Definition envNull : Env :=
  mkEnv steadyClock (fun _ _ => Resolved (mkResponse 200 JNull)).

Definition worldStale : World :=
  withClockReads 4
    (withCache (cachePut ∅ (getText docAdd) JNull 1000) (world0 docAdd)).

(** The index of the clock reading with which a hover stamps the entry it
    writes for [functionCode]: the lookup before the write has taken a
    reading of its own when an entry, fresh or not, was there. *)
Definition writeIndex (w : World) (functionCode : jsstring) : nat :=
  match complexityCache w !! getCacheKey functionCode with
  | Some _ => S (clockReads w)
  | None => clockReads w
  end.

(** A computation that neither reads nor writes the cache: on a world
    with another cache it does the same and leaves that cache in place. *)
Definition cacheOblivious {A : Type} (env : Env) (m : M A) : Prop :=
  forall (w : World) (c : gmap string CachedComplexity),
    m env (withCache c w) = (fst (m env w), withCache c (snd (m env w))).

(** A world whose cache holds a fresh verdict for the function of
    [docAdd], and the decoration a pass makes of it. *)
Definition worldCached : World :=
  withCache (cachePut ∅ (getText docAdd) verdict 1000) (world0 docAdd).

Definition sampleDecoration : DecorationOptions :=
  mkDecoration (mkRange (mkPosition 0 0) (mkPosition 0 0))
               [Lit " "; Glyph IconCheck; Lit " "; Interp (JStr (u16 "simple"))]
               "#22c55e".

(** [w'] differs from [w] at most in the documents, the active editor, the
    timer clock and the pending timers, of which there are no new ones:
    nothing was rendered, requested, cached or read off the clock. *)
Definition dormant (w w' : World) : Prop :=
  exists docs active ts t,
    w' = mkWorld (inlineEnabled w) (complexityCache w) (apiEndpoint w) (apiKey w)
                 docs active (selection w) ts t (clockReads w) (requests w)
                 (trace w)
    /\ incl ts (timers w).

(** ** The pass as its description has it *)

(** The spans located at [indices]: for each index in turn, the span
    [getFunctionAtPosition] returns at the position of the index, when it
    returns one. *)
Fixpoint spansAt (document : TextDocument) (indices : list nat) : list Range :=
  match indices with
  | [] => []
  | index :: rest =>
      match getFunctionAtPosition document (positionAt document index) with
      | Returned (Some functionRange) => functionRange :: spansAt document rest
      | _ => spansAt document rest
      end
  end.

(** All the spans of a document: those located at the matches of the
    global pattern, in document order. *)
Definition locatedSpans (document : TextDocument) : list Range :=
  spansAt document (matchIndices (getText document)).

(** The unexpired cache hits among [spans], in order, each with the result
    its entry holds.  A span whose text has an entry costs one reading of
    the clock, and is a hit when the entry is unexpired at that reading; a
    span whose text has no entry is skipped and costs no reading.  [reads]
    is the number of readings taken before. *)
Fixpoint cacheHits (env : Env) (cache : gmap string CachedComplexity)
         (document : TextDocument) (spans : list Range) (reads : nat)
  : list (Range * JsValue) :=
  match spans with
  | [] => []
  | functionRange :: rest =>
      match cache !! getCacheKey (getTextIn document functionRange) with
      | Some cached =>
          (if fresh cached (clock env reads)
           then [(functionRange, result cached)] else [])
          ++ cacheHits env cache document rest (S reads)
      | None => cacheHits env cache document rest reads
      end
  end.

(** The replacement set made of the hits: the decoration of each, in
    order; no set at all when one of them cannot be rendered. *)
Fixpoint annotationsOf (hits : list (Range * JsValue)) : Exc (list DecorationOptions) :=
  match hits with
  | [] => Returned []
  | (functionRange, value) :: rest =>
      exc_bind (createInlineDecoration functionRange value) (fun decoration =>
      exc_bind (annotationsOf rest) (fun decorations =>
        Returned (decoration :: decorations)))
  end.

(** The hits of a pass over the document of [editor] in the world [w]. *)
Definition passHits (env : Env) (w : World) (editor : nat) : list (Range * JsValue) :=
  cacheHits env (complexityCache w) (documents w editor)
            (locatedSpans (documents w editor)) (clockReads w).

(** The world in which a hover on the declaration of [docAdd] has been
    answered with [null]. *)
Definition worldNull : World :=
  snd (provideHover docAdd (mkPosition 0 0) envNull (world0 docAdd)).

(** * Properties *)

(** ** The model on small inputs *)

Example start_pattern_on_declaration :
  functionRegex_test (u16 "function add(a, b) {") = true.
Proof. reflexivity. Qed.

Example start_pattern_on_arrow_binding :
  functionRegex_test (u16 "const f = async (a) => {") = true.
Proof. reflexivity. Qed.

Example start_pattern_on_block_statement :
  functionRegex_test (u16 "  if (x) {") = true.
Proof. reflexivity. Qed.

Example start_pattern_not_on_body_line :
  functionRegex_test (u16 "  return a + b;") = false.
Proof. reflexivity. Qed.

Example start_pattern_needs_word_boundary :
  functionRegex_test (u16 "xconst f = 3") = false.
Proof. reflexivity. Qed.

(** The global pattern skips white space, line breaks included, before the
    group: the match for [function f] starts at the beginning of its line,
    the one for [const g] at the beginning of the indented line. *)
Example global_pattern_match_indices :
  matchIndices (u16 "a" ++ [10] ++ u16 "function f() {" ++ [10] ++ u16 "}"
                ++ [10] ++ u16 "  const g = function")
  = [2%nat; 19%nat].
Proof. vm_compute. reflexivity. Qed.

Example hash_of_declaration :
  getCacheKey (u16 "function add(a, b) {") = "-1174327320"%string.
Proof. vm_compute. reflexivity. Qed.

Example declaration_line_is_located :
  getFunctionAtPosition docAdd (mkPosition 0 3)
  = Returned (Some (mkRange (mkPosition 0 0) (mkPosition 2 1))).
Proof. vm_compute. reflexivity. Qed.

(** A function written on one line is never located: the scan only returns
    on a line after the start line. *)
Example one_line_function_is_not_located :
  getFunctionAtPosition docOneLine (mkPosition 0 3) = Returned None.
Proof. vm_compute. reflexivity. Qed.

(** A block statement inside an unterminated function is located as a
    function of its own. *)
Example nested_block_is_located :
  getFunctionAtPosition docOpen (mkPosition 1 2)
  = Returned (Some (mkRange (mkPosition 1 0) (mkPosition 3 3))).
Proof. vm_compute. reflexivity. Qed.

Example position_outside_document_throws :
  getFunctionAtPosition docAdd (mkPosition 5 0) = Threw EIllegalLine.
Proof. reflexivity. Qed.

(** Two hovers on the same function within the lifetime of the entry send
    one request. *)
Example second_hover_is_served_from_cache :
  requests (snd (provideHover docAdd (mkPosition 0 3) envOk
                   (snd (provideHover docAdd (mkPosition 0 3) envOk
                           (world0 docAdd)))))
  = 1%nat.
Proof. vm_compute. reflexivity. Qed.

(** ** The forward scan *)

Section ForwardScan.

Lemma braceCountAfter_app (c0 : Z) (a b : jsstring) :
  braceCountAfter c0 (a ++ b) = braceCountAfter (braceCountAfter c0 a) b.
Proof. unfold braceCountAfter. apply fold_left_app. Qed.

Lemma existsb_shift (f : nat -> bool) (a n : nat) :
  existsb f (seq (S a) n) = existsb (fun i => f (S i)) (seq a n).
Proof.
  revert a. induction n as [|n IH]; intros a; [reflexivity|].
  cbn [seq existsb]. rewrite IH. reflexivity.
Qed.

Lemma zeroWithin_cons (c0 char : Z) (rest : jsstring) :
  zeroWithin c0 (char :: rest)
  = (braceStep c0 char =? 0) || zeroWithin (braceStep c0 char) rest.
Proof.
  unfold zeroWithin. cbn [length seq existsb take braceCountAfter fold_left].
  f_equal. apply existsb_shift.
Qed.

(** The inner loop returns exactly when the count is zero after one of
    the line's characters and the line is after the start line. *)
Lemma scanChars_spec (lineText : jsstring) (c0 : Z) (later : bool) :
  scanChars lineText c0 later
  = if later && zeroWithin c0 lineText then Closed
    else Open (braceCountAfter c0 lineText).
Proof.
  revert c0. induction lineText as [|char rest IH]; intros c0.
  - destruct later; reflexivity.
  - rewrite zeroWithin_cons. cbn [scanChars]. rewrite IH.
    destruct later, (braceStep c0 char =? 0); reflexivity.
Qed.

Variable d : TextDocument.
Variable startLine : nat.

Lemma countBefore_start : countBefore d startLine startLine = 0.
Proof. unfold countBefore. rewrite Nat.sub_diag. reflexivity. Qed.

Lemma countBefore_S (i : nat) (lineText : jsstring) :
  (startLine <= i)%nat ->
  lines d !! i = Some lineText ->
  countBefore d startLine (S i)
  = braceCountAfter (countBefore d startLine i) lineText.
Proof.
  intros Hle Hi. unfold countBefore.
  replace (S i - startLine)%nat with (S (i - startLine)) by lia.
  rewrite (take_S_r _ _ lineText).
  - rewrite concat_app, braceCountAfter_app. cbn [concat].
    rewrite app_nil_r. reflexivity.
  - rewrite lookup_drop. rewrite <- Hi. f_equal. lia.
Qed.

(** After the start line the loop is a search for the first line on
    which the count returns to zero. *)
Lemma findEnd_later (k i : nat) :
  (startLine < i)%nat ->
  length (drop i (lines d)) = k ->
  findEnd (drop i (lines d)) i startLine (countBefore d startLine i)
  = List.find (returnsToZeroOn d startLine) (seq i k).
Proof.
  revert i. induction k as [|k IH]; intros i Hlt Hlen.
  - destruct (drop i (lines d)); [reflexivity | discriminate].
  - destruct (drop i (lines d)) as [|lineText rest] eqn:Hdrop; [discriminate|].
    assert (Hi : lines d !! i = Some lineText).
    { rewrite <- (Nat.add_0_r i), <- lookup_drop, Hdrop. reflexivity. }
    assert (Hrest : rest = drop (S i) (lines d)).
    { change rest with (drop 1 (lineText :: rest)).
      rewrite <- Hdrop, drop_drop, Nat.add_1_r. reflexivity. }
    cbn [findEnd seq List.find]. rewrite scanChars_spec.
    replace (startLine <? i)%nat with true by (symmetry; apply Nat.ltb_lt; lia).
    unfold returnsToZeroOn at 1. rewrite Hi. cbn [andb].
    destruct (zeroWithin (countBefore d startLine i) lineText); [reflexivity|].
    rewrite <- (countBefore_S i lineText) by (lia || assumption).
    rewrite Hrest. apply IH; [lia|].
    rewrite <- Hrest. cbn [length] in Hlen. lia.
Qed.

(** The forward scan of [getFunctionAtPosition] finds the closing line. *)
Lemma findEnd_closingLine :
  findEnd (drop startLine (lines d)) startLine startLine 0
  = closingLine d startLine.
Proof.
  unfold closingLine, lineCount.
  destruct (drop startLine (lines d)) as [|lineText rest] eqn:Hdrop.
  - apply (f_equal length) in Hdrop. rewrite length_drop in Hdrop.
    cbn [length] in Hdrop.
    replace (length (lines d) - S startLine)%nat with 0%nat by lia.
    reflexivity.
  - assert (Hi : lines d !! startLine = Some lineText).
    { rewrite <- (Nat.add_0_r startLine), <- lookup_drop, Hdrop. reflexivity. }
    assert (Hrest : rest = drop (S startLine) (lines d)).
    { change rest with (drop 1 (lineText :: rest)).
      rewrite <- Hdrop, drop_drop, Nat.add_1_r. reflexivity. }
    cbn [findEnd]. rewrite scanChars_spec, Nat.ltb_irrefl. cbn [andb].
    rewrite <- countBefore_start at 1.
    rewrite <- (countBefore_S startLine lineText) by (lia || assumption).
    rewrite Hrest. apply findEnd_later; [lia|].
    rewrite length_drop. reflexivity.
Qed.

Lemma closingLine_in_document (endLine : nat) :
  closingLine d startLine = Some endLine ->
  (startLine < endLine)%nat /\ is_Some (lines d !! endLine).
Proof.
  unfold closingLine. intros H. apply find_some in H as [Hin Hz].
  apply in_seq in Hin. split; [lia|].
  unfold returnsToZeroOn in Hz.
  destruct (lines d !! endLine); [eauto | discriminate].
Qed.

Lemma unterminated_closingLine :
  unterminated d startLine = true -> closingLine d startLine = None.
Proof.
  unfold unterminated, closingLine. intros H.
  destruct (List.find _ _) as [e|] eqn:Hfind; [|reflexivity].
  apply find_some in Hfind as [Hin Hz].
  rewrite forallb_forall in H. specialize (H e Hin).
  rewrite Hz in H. discriminate.
Qed.

End ForwardScan.

(** ** The locator *)

Section Locator.

Variable d : TextDocument.

(** The upward scan stops at once on a line that matches the start
    pattern. *)
Lemma findStart_on_match (positionLine i : nat) (text : jsstring) :
  lines d !! i = Some text ->
  functionRegex_test text = true ->
  findStart d positionLine i = Returned (Some i).
Proof.
  intros Hi Ht. destruct i; cbn [findStart]; unfold lineAt; rewrite Hi;
    cbn [exc_bind]; rewrite Ht; reflexivity.
Qed.

(** What [getFunctionAtPosition] computes, for a position in the
    document. *)
Lemma getFunctionAtPosition_unfold (p : Position) (text : jsstring) :
  lines d !! line p = Some text ->
  getFunctionAtPosition d p
  = if functionRegex_test text then
      match closingLine d (line p) with
      | Some endLine =>
          Returned (Some (mkRange (mkPosition (line p) 0)
                                  (mkPosition endLine
                                     (length (default [] (lines d !! endLine))))))
      | None => Returned None
      end
    else Returned None.
Proof.
  intros Hp. unfold getFunctionAtPosition, lineAt at 1. rewrite Hp.
  cbn [exc_bind]. destruct (functionRegex_test text) eqn:Ht; [|reflexivity].
  cbn [negb]. rewrite (findStart_on_match _ _ text Hp Ht). cbn [exc_bind].
  rewrite findEnd_closingLine.
  destruct (closingLine d (line p)) as [endLine|] eqn:Hc; [|reflexivity].
  destruct (closingLine_in_document _ _ _ Hc) as [_ [endText He]].
  unfold lineAt. rewrite He. reflexivity.
Qed.

End Locator.

(** ** The cache key *)

Section CacheKey.

Lemma toInt32_cong (z : Z) : cong32 (toInt32 z) z.
Proof.
  unfold cong32, toInt32. exists (- ((z + 2147483648) / 4294967296)).
  pose proof (Z.div_mod (z + 2147483648) 4294967296). lia.
Qed.

Lemma toInt32_range (z : Z) : -2147483648 <= toInt32 z < 2147483648.
Proof.
  unfold toInt32.
  pose proof (Z.mod_pos_bound (z + 2147483648) 4294967296). lia.
Qed.

Lemma toInt32_of_cong (a b : Z) : cong32 a b -> toInt32 a = toInt32 b.
Proof.
  intros [k Hk]. unfold toInt32. f_equal.
  replace (a + 2147483648) with (b + 2147483648 + k * 4294967296) by lia.
  apply Z.mod_add. lia.
Qed.

(** One round of the loop is [31 * hash + char] in 32-bit arithmetic. *)
Lemma hashStep_eq (hash char : Z) : hashStep hash char = toInt32 (31 * hash + char).
Proof.
  unfold hashStep, int32_and, int32_shl. rewrite Z.land_diag.
  rewrite Z.shiftl_mul_pow2 by lia.
  apply toInt32_of_cong.
  destruct (toInt32_cong (toInt32 (toInt32 hash * 2 ^ 5) - hash + char)) as [k1 H1].
  destruct (toInt32_cong (toInt32 hash * 2 ^ 5)) as [k2 H2].
  destruct (toInt32_cong hash) as [k3 H3].
  exists (k1 + k2 + 32 * k3). change (2 ^ 5) with 32 in *. lia.
Qed.

Lemma hashStep_cong (hash char : Z) : cong32 (hashStep hash char) (31 * hash + char).
Proof. rewrite hashStep_eq. apply toInt32_cong. Qed.

(** 31 is odd, so a round loses nothing of the hash it starts from. *)
Lemma hashStep_cancel (h1 h2 char : Z) :
  cong32 (hashStep h1 char) (hashStep h2 char) -> cong32 h1 h2.
Proof.
  intros [k Hk].
  destruct (hashStep_cong h1 char) as [k1 H1].
  destruct (hashStep_cong h2 char) as [k2 H2].
  exists (3186588639 * (k - k1 + k2) - 23 * (h1 - h2)). lia.
Qed.

Lemma fold_hashStep_cancel (post : jsstring) (h1 h2 : Z) :
  fold_left hashStep post h1 = fold_left hashStep post h2 -> cong32 h1 h2.
Proof.
  revert h1 h2. induction post as [|char post IH]; intros h1 h2 H.
  - exists 0. cbn in H. lia.
  - cbn [fold_left] in H. apply (hashStep_cancel _ _ char), IH, H.
Qed.

(** Replacing one code unit by another changes the hash. *)
Lemma hashCode_substitution (pre post : jsstring) (a b : Z) :
  code_unit a -> code_unit b -> a <> b ->
  hashCode (pre ++ a :: post) <> hashCode (pre ++ b :: post).
Proof.
  unfold hashCode, code_unit. intros Ha Hb Hab H.
  rewrite !fold_left_app in H. cbn [fold_left] in H.
  apply fold_hashStep_cancel in H. destruct H as [k Hk].
  set (h := fold_left hashStep pre 0) in *.
  destruct (hashStep_cong h a) as [k1 H1].
  destruct (hashStep_cong h b) as [k2 H2].
  assert (a - b = (k - k1 + k2) * 4294967296) by lia.
  lia.
Qed.

Lemma getCacheKey_inj_hash (c1 c2 : jsstring) :
  getCacheKey c1 = getCacheKey c2 <-> hashCode c1 = hashCode c2.
Proof.
  unfold getCacheKey. split; [apply pretty_Z_inj | congruence].
Qed.

End CacheKey.

(** ** Claims about the locator *)

(** C1, as stated, fails: line 1 of [docAdd] lies strictly inside the
    well-nested function that starts on line 0 (the described span is lines
    0 to 2), yet [getFunctionAtPosition] gives no span there, because the
    line itself does not match the start pattern. *)
Lemma body_line_is_not_located :
  insideFunction docAdd (mkPosition 1 3) = true
  /\ describedSpan docAdd (mkPosition 1 3) = Some (0%nat, 2%nat)
  /\ getFunctionAtPosition docAdd (mkPosition 1 3) = Returned None.
Proof. repeat split; vm_compute; reflexivity. Qed.

(** C1, amended: for a position in the document, a line that does not
    match the start pattern gets no span, wherever it lies.  When the
    position's own line matches the pattern, the brace count is away from
    zero at the end of that line, and it first returns to zero on a later
    line, the span starts at the position's line, column 0, and ends at the
    end of that later line; when no later line brings the count to zero,
    there is no span.  Whatever the brace count does, a span that is
    returned starts at column 0 of the position's own line, that line
    matches the start pattern, and the span ends at the end of a later line
    of the document: the first one on which the running count, started at
    zero on the position's line, is zero after some character. *)
Theorem span_starts_on_the_position_line (d : TextDocument) (p : Position)
        (text : jsstring) :
  lines d !! line p = Some text ->
  (functionRegex_test text = false -> getFunctionAtPosition d p = Returned None)
  /\ (functionRegex_test text = true ->
      braceCountAfter 0 text <> 0 ->
      forall (endLine : nat) (endText : jsstring),
        closingLine d (line p) = Some endLine ->
        lines d !! endLine = Some endText ->
        getFunctionAtPosition d p
        = Returned (Some (mkRange (mkPosition (line p) 0)
                                  (mkPosition endLine (length endText)))))
  /\ (closingLine d (line p) = None -> getFunctionAtPosition d p = Returned None)
  /\ (forall r : Range,
        getFunctionAtPosition d p = Returned (Some r) ->
        functionRegex_test text = true
        /\ start r = mkPosition (line p) 0
        /\ exists (endLine : nat) (endText : jsstring),
            (line p < endLine)%nat
            /\ closingLine d (line p) = Some endLine
            /\ lines d !! endLine = Some endText
            /\ end_ r = mkPosition endLine (length endText)).
Proof.
  intros Hp. rewrite (getFunctionAtPosition_unfold d p text Hp).
  split; [|split; [|split]].
  - intros ->. reflexivity.
  - intros -> _ endLine endText -> ->. reflexivity.
  - intros ->. destruct (functionRegex_test text); reflexivity.
  - intros r Hr.
    destruct (functionRegex_test text); [|discriminate].
    destruct (closingLine d (line p)) as [endLine|] eqn:Hc; [|discriminate].
    destruct (closingLine_in_document _ _ _ Hc) as [Hlt [endText He]].
    injection Hr as <-. rewrite He. cbn [start end_ default].
    split; [reflexivity|]. split; [reflexivity|].
    exists endLine, endText. auto.
Qed.

(** Witness for C1 (amended): the declaration line of [docAdd], its body
    line, and the span of an unterminated function whose brace stands on
    the next line, which starts on the position's line all the same. *)
Lemma span_starts_on_the_position_line_witness :
  getFunctionAtPosition docAdd (mkPosition 0 3)
  = Returned (Some (mkRange (mkPosition 0 0) (mkPosition 2 1)))
  /\ getFunctionAtPosition docAdd (mkPosition 1 3) = Returned None
  /\ exists r : Range,
      getFunctionAtPosition docAllman (mkPosition 0 5) = Returned (Some r)
      /\ start r = mkPosition 0 0.
Proof.
  split; [|split].
  - refine (proj1 (proj2 (span_starts_on_the_position_line docAdd (mkPosition 0 3)
                            (u16 "function add(a, b) {") eq_refl))
              eq_refl _ 2%nat (u16 "}") eq_refl eq_refl).
    vm_compute. discriminate.
  - exact (proj1 (span_starts_on_the_position_line docAdd (mkPosition 1 3)
                    (u16 "  return a + b;") eq_refl) eq_refl).
  - exists (mkRange (mkPosition 0 0) (mkPosition 1 3)).
    split; [reflexivity|].
    exact (proj1 (proj2 (proj2 (proj2 (proj2
             (span_starts_on_the_position_line docAllman (mkPosition 0 5)
                (u16 "function f()") eq_refl)))
             (mkRange (mkPosition 0 0) (mkPosition 1 3)) eq_refl))).
Defined.

(** When the position is in the document, the upward scan resolves it to
    [startLine], and the brace count started there is zero after no
    character of any later line, [getFunctionAtPosition] returns none. *)
Lemma open_count_is_not_located (d : TextDocument) (p : Position)
      (startLine : nat) :
  (line p < lineCount d)%nat ->
  findStart d (line p) (line p) = Returned (Some startLine) ->
  unterminated d startLine = true ->
  getFunctionAtPosition d p = Returned None.
Proof.
  intros Hin Hstart Hopen.
  destruct (lookup_lt_is_Some_2 (lines d) (line p) Hin) as [text Hp].
  rewrite (getFunctionAtPosition_unfold d p text Hp).
  destruct (functionRegex_test text) eqn:Ht; [|reflexivity].
  rewrite (findStart_on_match d _ _ text Hp Ht) in Hstart.
  injection Hstart as <-.
  rewrite (unterminated_closingLine _ _ Hopen). reflexivity.
Qed.

Section ReturnsToZero.

Lemma returnsToZero_once_away (a b : jsstring) (c : Z) :
  a <> [] -> braceCountAfter c a = 0 -> returnsToZero c true (a ++ b) = true.
Proof.
  revert c. induction a as [|char a IH]; intros c Hne Hzero; [congruence|].
  cbn [app returnsToZero orb andb]. rewrite andb_true_r.
  destruct (braceStep c char =? 0) eqn:Hc; [reflexivity|].
  apply IH; [|exact Hzero].
  intros ->. cbn in Hzero. rewrite Hzero in Hc. discriminate.
Qed.

Lemma returnsToZero_after_leaving (a b : jsstring) (c : Z) (left : bool) :
  braceCountAfter c a <> 0 ->
  returnsToZero (braceCountAfter c a) true b = true ->
  returnsToZero c left (a ++ b) = true.
Proof.
  revert c left. induction a as [|char a IH]; intros c left Hne Hb.
  - cbn [app braceCountAfter fold_left] in *.
    destruct b as [|char b]; [discriminate|].
    cbn [returnsToZero] in *.
    replace (c =? 0) with false by (symmetry; apply Z.eqb_neq; exact Hne).
    rewrite orb_true_r. cbn [orb] in Hb. exact Hb.
  - cbn [app returnsToZero].
    destruct ((braceStep c char =? 0) && (left || negb (c =? 0))); [reflexivity|].
    apply IH; assumption.
Qed.

Variable d : TextDocument.
Variable startLine : nat.
Variable text : jsstring.
Hypothesis start_in_document : lines d !! startLine = Some text.
Hypothesis body_opens_on_start_line : braceCountAfter 0 text <> 0.

(** When the body opens on the start line, a count that is zero on a later
    line has returned to zero. *)
Lemma returnsToZeroOn_returnsToZero (i : nat) :
  (startLine < i)%nat ->
  returnsToZeroOn d startLine i = true ->
  returnsToZero 0 false (concat (drop startLine (lines d))) = true.
Proof.
  intros Hlt Hz. unfold returnsToZeroOn in Hz.
  destruct (lines d !! i) as [lineText|] eqn:Hi; [|discriminate].
  unfold zeroWithin in Hz. apply existsb_exists in Hz as (n & Hn & Hzero).
  apply in_seq in Hn. apply Z.eqb_eq in Hzero.
  assert (Hsplit : drop startLine (lines d)
                   = text :: take (i - S startLine) (drop (S startLine) (lines d))
                          ++ lineText :: drop (S i) (lines d)).
  { rewrite (drop_S _ _ _ start_in_document). f_equal.
    rewrite <- (take_drop (i - S startLine) (drop (S startLine) (lines d))) at 1.
    f_equal. rewrite drop_drop.
    replace (S startLine + (i - S startLine))%nat with i by lia.
    apply drop_S, Hi. }
  assert (Hcount : countBefore d startLine i
                   = braceCountAfter (braceCountAfter 0 text)
                       (concat (take (i - S startLine) (drop (S startLine) (lines d))))).
  { unfold countBefore. rewrite (drop_S _ _ _ start_in_document).
    replace (i - startLine)%nat with (S (i - S startLine)) by lia.
    cbn [take concat]. apply braceCountAfter_app. }
  rewrite Hsplit. cbn [concat].
  apply returnsToZero_after_leaving; [exact body_opens_on_start_line|].
  rewrite concat_app. cbn [concat].
  rewrite <- (take_drop n lineText), <- !app_assoc, app_assoc.
  apply returnsToZero_once_away.
  - destruct lineText as [|ch lt]; [cbn in Hn; lia|].
    destruct n; [lia|]. cbn [take].
    intros Hnil. apply app_eq_nil in Hnil as [_ Hnil]. discriminate.
  - rewrite braceCountAfter_app, <- Hcount. exact Hzero.
Qed.

(** When the body opens on the start line and the count never returns to
    zero, no later line closes the function. *)
Lemma neverReturnsToZero_unterminated :
  neverReturnsToZero d startLine = true -> unterminated d startLine = true.
Proof.
  unfold neverReturnsToZero, unterminated. intros Hnever.
  apply forallb_forall. intros i Hi. apply in_seq in Hi.
  destruct (returnsToZeroOn d startLine i) eqn:Hz; [|reflexivity].
  rewrite (returnsToZeroOn_returnsToZero i) in Hnever by (lia || assumption).
  discriminate.
Qed.

End ReturnsToZero.

(** Where the unterminated-function property does hold: the function's body
    opens on its declaration line and the count never returns to zero;
    then a position on that line gets no span. *)
Lemma open_body_is_not_located (d : TextDocument) (p : Position) (text : jsstring) :
  lines d !! line p = Some text ->
  functionRegex_test text = true ->
  braceCountAfter 0 text <> 0 ->
  neverReturnsToZero d (line p) = true ->
  getFunctionAtPosition d p = Returned None.
Proof.
  intros Hp Ht Hopen Hnever.
  apply (open_count_is_not_located d p (line p)).
  - apply lookup_lt_is_Some_1. eauto.
  - apply (findStart_on_match d _ _ text Hp Ht).
  - apply (neverReturnsToZero_unterminated d (line p) text Hp Hopen Hnever).
Qed.

(** C8 fails on the code.  In [docAllman] the function's opening brace is
    on the line after the declaration and no closing brace occurs anywhere;
    the running count never returns to zero.  Yet the forward scan finds the
    count (still) zero at the first character of line 1 and returns the span
    of lines 0 to 1 for a position on the declaration. *)
Theorem brace_on_next_line_is_taken_for_the_end :
  existsb (fun c => c =? 125) (getText docAllman) = false
  /\ neverReturnsToZero docAllman 0 = true
  /\ findStart docAllman 0 0 = Returned (Some 0%nat)
  /\ getFunctionAtPosition docAllman (mkPosition 0 0)
     = Returned (Some (mkRange (mkPosition 0 0) (mkPosition 1 3))).
Proof. repeat split; vm_compute; reflexivity. Qed.

(** ** Claims about the cache *)

Section CacheOperations.

Variable env : Env.

Lemma lookupCached_run (w : World) (c : jsstring) :
  lookupCached c env w
  = (Returned (cacheGet (complexityCache w) c (clock env (clockReads w))),
     match complexityCache w !! getCacheKey c with
     | Some _ => withClockReads (S (clockReads w)) w
     | None => w
     end).
Proof.
  unfold lookupCached, bind, get, dateNow, ret, cacheGet.
  destruct (complexityCache w !! getCacheKey c); reflexivity.
Qed.

Lemma lookupCached_cache (w : World) (c : jsstring) :
  complexityCache (snd (lookupCached c env w)) = complexityCache w.
Proof.
  rewrite lookupCached_run. cbn [snd].
  destruct (complexityCache w !! getCacheKey c); reflexivity.
Qed.

Lemma storeResult_run (w : World) (c : jsstring) (v : JsValue) :
  storeResult c v env w
  = (Returned tt,
     withCache (cachePut (complexityCache w) c v (clock env (clockReads w)))
               (withClockReads (S (clockReads w)) w)).
Proof. reflexivity. Qed.

Lemma cacheGet_cachePut (cache : gmap string CachedComplexity)
      (c : jsstring) (v : JsValue) (T now : Z) :
  cacheGet (cachePut cache c v T) c now
  = if now - T <? CACHE_DURATION then Some v else None.
Proof.
  unfold cacheGet, cachePut. rewrite lookup_insert_eq. reflexivity.
Qed.

Lemma cacheGet_cachePut_other (cache : gmap string CachedComplexity)
      (c1 c2 : jsstring) (v : JsValue) (T now : Z) :
  getCacheKey c1 <> getCacheKey c2 ->
  cacheGet (cachePut cache c2 v T) c1 now = cacheGet cache c1 now.
Proof.
  intros Hne. unfold cacheGet, cachePut.
  rewrite lookup_insert_ne by congruence. reflexivity.
Qed.

End CacheOperations.

(** C5: after the cache write of a verdict [v] for a text [c] at clock
    reading [T], a read of [c] at a reading strictly before
    [T + CACHE_DURATION] yields [v] and a read strictly after it yields
    none; [CACHE_DURATION] is five minutes in milliseconds; the read leaves
    the store as it was, so the expired entry is still in it. *)
Theorem cache_entry_lives_five_minutes (env : Env) (w w2 : World)
        (c : jsstring) (v : JsValue) :
  let T := clock env (clockReads w) in
  let w1 := snd (storeResult c v env w) in
  let now := clock env (clockReads w2) in
  complexityCache w2 = complexityCache w1 ->
  (now < T + CACHE_DURATION -> fst (lookupCached c env w2) = Returned (Some v))
  /\ (T + CACHE_DURATION < now -> fst (lookupCached c env w2) = Returned None)
  /\ CACHE_DURATION = 5 * 60 * 1000
  /\ complexityCache (snd (lookupCached c env w2)) !! getCacheKey c
     = Some (mkCached v c T).
Proof.
  intros T w1 now Hcache.
  assert (Hget : fst (lookupCached c env w2)
                 = Returned (if now - T <? CACHE_DURATION then Some v else None)).
  { rewrite lookupCached_run. cbn [fst]. rewrite Hcache. subst w1.
    rewrite storeResult_run. cbn [snd complexityCache withCache].
    rewrite cacheGet_cachePut. reflexivity. }
  repeat split.
  - intros Hlt. rewrite Hget.
    replace (now - T <? CACHE_DURATION) with true; [reflexivity|].
    symmetry. apply Z.ltb_lt. lia.
  - intros Hgt. rewrite Hget.
    replace (now - T <? CACHE_DURATION) with false; [reflexivity|].
    symmetry. apply Z.ltb_ge. lia.
  - rewrite lookupCached_cache, Hcache. subst w1. rewrite storeResult_run.
    cbn [snd complexityCache withCache]. unfold cachePut.
    apply lookup_insert_eq.
Qed.

(** Witness for C5: a write at time 1000, a read at time 101000 and a read
    at time 401000. *)
Lemma cache_entry_lives_five_minutes_witness :
  fst (lookupCached (u16 "f") envOk
         (snd (storeResult (u16 "f") verdict envOk (world0 docAdd))))
  = Returned (Some verdict)
  /\ fst (lookupCached (u16 "f") envOk
            (withClockReads 4
               (snd (storeResult (u16 "f") verdict envOk (world0 docAdd)))))
     = Returned None.
Proof.
  split.
  - apply (cache_entry_lives_five_minutes envOk (world0 docAdd)
             (snd (storeResult (u16 "f") verdict envOk (world0 docAdd)))
             (u16 "f") verdict eq_refl).
    vm_compute. reflexivity.
  - apply (cache_entry_lives_five_minutes envOk (world0 docAdd)
             (withClockReads 4
                (snd (storeResult (u16 "f") verdict envOk (world0 docAdd))))
             (u16 "f") verdict eq_refl).
    vm_compute. reflexivity.
Defined.

(** C6: when [c1] and [c2] are the same text, a read of [c1] within the
    lifetime after the write of [v] for [c2] yields exactly [v], whatever
    the store held before: an earlier write of [v0] for the same text is
    overwritten. *)
Theorem cache_round_trip_on_equal_text (env : Env) (w w2 : World)
        (c1 c2 : jsstring) (v0 v : JsValue) :
  let w0 := snd (storeResult c2 v0 env w) in
  let w1 := snd (storeResult c2 v env w0) in
  let T := clock env (clockReads w0) in
  c1 = c2 ->
  complexityCache w2 = complexityCache w1 ->
  clock env (clockReads w2) < T + CACHE_DURATION ->
  fst (lookupCached c1 env w2) = Returned (Some v).
Proof.
  intros w0 w1 T -> Hcache Hfresh.
  rewrite lookupCached_run. cbn [fst]. rewrite Hcache. subst w1.
  rewrite storeResult_run. cbn [snd complexityCache withCache].
  rewrite cacheGet_cachePut. fold T.
  replace (clock env (clockReads w2) - T <? CACHE_DURATION) with true;
    [reflexivity|]. symmetry. apply Z.ltb_lt. lia.
Qed.

(** Witness for C6: two writes for the same text, then a read. *)
Lemma cache_round_trip_on_equal_text_witness :
  fst (lookupCached (u16 "f") envOk
         (snd (storeResult (u16 "f") verdict envOk
                 (snd (storeResult (u16 "f") JNull envOk (world0 docAdd))))))
  = Returned (Some verdict).
Proof.
  apply (cache_round_trip_on_equal_text envOk (world0 docAdd)
           (snd (storeResult (u16 "f") verdict envOk
                   (snd (storeResult (u16 "f") JNull envOk (world0 docAdd)))))
           (u16 "f") (u16 "f") JNull verdict eq_refl eq_refl).
  vm_compute. reflexivity.
Defined.

(** C7, as stated, fails: [codeA] and [codeB] are distinct texts that
    differ only in white space, their keys are equal, and a read of one
    after a write of the other is a hit. *)
Lemma whitespace_variants_can_share_a_key :
  differOnlyInWhiteSpace codeA codeB
  /\ getCacheKey codeA = getCacheKey codeB
  /\ cacheGet (cachePut ∅ codeB verdict 1000) codeA 2000 = Some verdict.
Proof.
  split; [split|split].
  - discriminate.
  - vm_compute. reflexivity.
  - vm_compute. reflexivity.
  - vm_compute. reflexivity.
Qed.

(** C7, amended: the key is computed from the exact code units, white
    space included.  Two texts that differ in exactly one code unit (a
    space replaced by a tab, say) have different keys, and a write for one
    leaves every read of the other as it was. *)
Theorem one_code_unit_changes_the_key (pre post : jsstring) (a b : Z)
        (cache : gmap string CachedComplexity) (v : JsValue) (T now : Z) :
  code_unit a -> code_unit b -> a <> b ->
  getCacheKey (pre ++ a :: post) <> getCacheKey (pre ++ b :: post)
  /\ cacheGet (cachePut cache (pre ++ b :: post) v T) (pre ++ a :: post) now
     = cacheGet cache (pre ++ a :: post) now.
Proof.
  intros Ha Hb Hab.
  assert (Hkey : getCacheKey (pre ++ a :: post) <> getCacheKey (pre ++ b :: post)).
  { rewrite getCacheKey_inj_hash. apply hashCode_substitution; assumption. }
  split; [exact Hkey|]. apply cacheGet_cachePut_other, Hkey.
Qed.

(** Witness for C7 (amended): a space against a tab inside a function. *)
Lemma one_code_unit_changes_the_key_witness :
  getCacheKey (u16 "function f() {" ++ 32 :: u16 "}")
  <> getCacheKey (u16 "function f() {" ++ 9 :: u16 "}")
  /\ cacheGet (cachePut ∅ (u16 "function f() {" ++ 9 :: u16 "}") verdict 1000)
              (u16 "function f() {" ++ 32 :: u16 "}") 2000
     = cacheGet ∅ (u16 "function f() {" ++ 32 :: u16 "}") 2000.
Proof.
  apply (one_code_unit_changes_the_key (u16 "function f() {") (u16 "}") 32 9
           ∅ verdict 1000 2000).
  - unfold code_unit. lia.
  - unfold code_unit. lia.
  - discriminate.
Defined.

(** ** Claims about the classifier client and its callers *)

Section Classifier.

Variable env : Env.

(** What one call of [analyzeCode] does, case by case. *)
Lemma analyzeCode_run (w : World) (code : jsstring) :
  analyzeCode code env w
  = match service env (requests w) code with
    | Resolved r =>
        (Returned (data r),
         withRequests (S (requests w))
           (withTrace (trace w ++ [analyzeRequest w code]) w))
    | Rejected e =>
        (Threw (EAxios e),
         withRequests (S (requests w))
           (withTrace
              (((trace w ++ [analyzeRequest w code])
                ++ [ConsoleError "API Error:" (EAxios e)])
               ++ [apiErrorNotice (EAxios e)]) w))
    end.
Proof.
  unfold analyzeCode, bind, tryCatch, get, axiosPost, emit, throw, ret.
  destruct (service env (requests w) code); reflexivity.
Qed.

Lemma trimStart_nil (s : jsstring) :
  isEmpty (trimStart s) = whitespaceOnly s.
Proof.
  induction s as [|c s IH]; [reflexivity|].
  cbn [trimStart whitespaceOnly forallb].
  destruct (isWhiteSpace c); [exact IH | reflexivity].
Qed.

Lemma trimStart_keeps_a_letter (s : jsstring) :
  whitespaceOnly s = false -> whitespaceOnly (trimStart s) = false.
Proof.
  induction s as [|c s IH]; [discriminate|].
  cbn [trimStart whitespaceOnly forallb].
  destruct (isWhiteSpace c) eqn:Hc; [exact IH|].
  intros _. cbn [forallb]. rewrite Hc. reflexivity.
Qed.

Lemma whitespaceOnly_rev (s : jsstring) :
  whitespaceOnly (rev s) = whitespaceOnly s.
Proof.
  unfold whitespaceOnly. induction s as [|c s IH]; [reflexivity|].
  cbn [rev forallb]. rewrite forallb_app, IH. cbn [forallb].
  rewrite andb_true_r. apply andb_comm.
Qed.

(** [!code.trim()] holds exactly for the texts that are empty or white
    space only. *)
Lemma trim_empty (s : jsstring) : isEmpty (trim s) = whitespaceOnly s.
Proof.
  unfold trim, trimEnd.
  destruct (whitespaceOnly s) eqn:Hs.
  - rewrite <- trimStart_nil in Hs.
    destruct (trimStart s); [reflexivity | discriminate].
  - apply trimStart_keeps_a_letter in Hs.
    rewrite <- whitespaceOnly_rev in Hs.
    apply trimStart_keeps_a_letter in Hs.
    rewrite <- whitespaceOnly_rev in Hs.
    destruct (rev (trimStart (rev (trimStart s)))); [discriminate | reflexivity].
Qed.

End Classifier.

(** C9, as stated, fails: a response that is no ComplexityVerdict (here a
    page of HTML) is returned by [analyzeCode] as its result; nothing is
    thrown. *)
Lemma uninterpretable_response_is_returned :
  wellFormedVerdict (JStr (u16 "<html>")) = false
  /\ fst (analyzeCode (u16 "x") envHtml (world0 docAdd))
     = Returned (JStr (u16 "<html>")).
Proof. split; vm_compute; reflexivity. Qed.

(** C9, amended: [analyzeCode] sends one request.  When the request
    resolves, the response body is returned as it is, unvalidated.  When it
    is rejected, for whatever cause, the error is logged, one notification
    built from the response's [detail] or else the error's message is
    shown, and the same error is thrown again. *)
Theorem analyzeCode_passes_response_and_error_through (env : Env) (w : World)
        (code : jsstring) :
  let outcome := analyzeCode code env w in
  requests (snd outcome) = S (requests w)
  /\ complexityCache (snd outcome) = complexityCache w
  /\ match service env (requests w) code with
     | Resolved r =>
         fst outcome = Returned (data r)
         /\ trace (snd outcome) = trace w ++ [analyzeRequest w code]
     | Rejected e =>
         fst outcome = Threw (EAxios e)
         /\ trace (snd outcome)
            = trace w ++ [analyzeRequest w code;
                          ConsoleError "API Error:" (EAxios e);
                          apiErrorNotice (EAxios e)]
     end.
Proof.
  cbv zeta. rewrite analyzeCode_run.
  destruct (service env (requests w) code) as [r|e]; cbn [fst snd];
    repeat split.
  cbn [trace withTrace withRequests]. rewrite <- !app_assoc. reflexivity.
Qed.

(** C3, as stated, fails: with the service unreachable, a hover on the
    declaration of [docAdd] returns no result and a notification is on the
    trace. *)
Lemma hover_failure_is_notified :
  let outcome := provideHover docAdd (mkPosition 0 3) envDown (world0 docAdd) in
  fst outcome = Returned None
  /\ existsb isNotification (trace (snd outcome)) = true
  /\ In (apiErrorNotice (EAxios networkDown)) (trace (snd outcome)).
Proof.
  cbv zeta. split; [|split].
  - vm_compute. reflexivity.
  - vm_compute. reflexivity.
  - vm_compute. right. right. left. reflexivity.
Qed.

(** C3, amended: when the classifier request made for a hover fails, the
    hover provider logs the failure, returns no result and leaves the cache
    as it was; the client it called has by then logged the error and shown
    its error notification.  The manual path shows the very same
    notification, and nothing else reports the failure there. *)
Theorem hover_failure_is_logged_and_notified_by_client (env : Env) (w : World)
        (document : TextDocument) (position : Position) (functionRange : Range)
        (editor : nat) (e : AxiosError) :
  let functionCode := getTextIn document functionRange in
  getFunctionAtPosition document position = Returned (Some functionRange) ->
  cacheGet (complexityCache w) functionCode (clock env (clockReads w)) = None ->
  service env (requests w) functionCode = Rejected e ->
  let hover := provideHover document position env w in
  (fst hover = Returned None
   /\ complexityCache (snd hover) = complexityCache w
   /\ trace (snd hover)
      = trace w ++ [analyzeRequest w functionCode;
                    ConsoleError "API Error:" (EAxios e);
                    apiErrorNotice (EAxios e);
                    ConsoleError "Failed to analyze function on hover:" (EAxios e)])
  /\ (activeTextEditor w = Some editor ->
      selectedText w editor = functionCode ->
      whitespaceOnly functionCode = false ->
      trace (snd (analyzeSelection env w))
      = trace w ++ [WithProgress "Analyzing code complexity...";
                    analyzeRequest w functionCode;
                    ConsoleError "API Error:" (EAxios e);
                    apiErrorNotice (EAxios e);
                    UnhandledRejection (EAxios e)]).
Proof.
  intros functionCode Hrange Hmiss Hfail. cbv zeta.
  set (w1 := match complexityCache w !! getCacheKey functionCode with
             | Some _ => withClockReads (S (clockReads w)) w
             | None => w
             end).
  assert (Hw1 : requests w1 = requests w /\ trace w1 = trace w
                /\ complexityCache w1 = complexityCache w
                /\ apiEndpoint w1 = apiEndpoint w /\ apiKey w1 = apiKey w).
  { subst w1. destruct (complexityCache w !! getCacheKey functionCode);
      repeat split. }
  destruct Hw1 as (Hreq & Htr & Hc & Hep & Hk).
  assert (Hhover :
    provideHover document position env w
    = (Returned None,
       withTrace
         ((((trace w1 ++ [analyzeRequest w1 functionCode])
            ++ [ConsoleError "API Error:" (EAxios e)])
           ++ [apiErrorNotice (EAxios e)])
          ++ [ConsoleError "Failed to analyze function on hover:" (EAxios e)])
         (withRequests (S (requests w1)) w1))).
  { unfold provideHover, bind at 1, lift. rewrite Hrange.
    unfold bind at 1. rewrite lookupCached_run. fold functionCode w1.
    rewrite Hmiss. unfold tryCatch, bind at 1.
    rewrite analyzeCode_run, Hreq, Hfail. reflexivity. }
  split.
  - rewrite Hhover. cbn [fst snd complexityCache trace withTrace withRequests].
    unfold analyzeRequest. rewrite Htr, Hc, Hep, Hk, <- !app_assoc.
    repeat split.
  - intros Hed Hsel Hws.
    assert (Hmanual :
      analyzeSelection env w
      = (Returned tt,
         withTrace
           (((((trace w ++ [WithProgress "Analyzing code complexity..."])
               ++ [analyzeRequest w functionCode])
              ++ [ConsoleError "API Error:" (EAxios e)])
             ++ [apiErrorNotice (EAxios e)])
            ++ [UnhandledRejection (EAxios e)])
           (withRequests (S (requests w)) w))).
    { unfold analyzeSelection, bind at 1, get. rewrite Hed.
      fold (selectedText w editor). rewrite Hsel, trim_empty, Hws.
      unfold bind at 1, emit at 1, detached, tryCatch, bind at 1.
      rewrite analyzeCode_run.
      cbn [requests withTrace trace]. rewrite Hfail. reflexivity. }
    rewrite Hmanual. cbn [snd trace withTrace]. rewrite <- !app_assoc.
    reflexivity.
Qed.

(** Witness for C3 (amended): the service is unreachable, the cache empty,
    and the hover is on the declaration of [docAdd]; the manual analysis
    runs on the whole of [docAdd]. *)
Lemma hover_failure_is_logged_and_notified_by_client_witness :
  fst (provideHover docAdd (mkPosition 0 3) envDown (world0 docAdd)) = Returned None
  /\ trace (snd (analyzeSelection envDown (world0 docAdd)))
     = [WithProgress "Analyzing code complexity...";
        analyzeRequest (world0 docAdd) (getText docAdd);
        ConsoleError "API Error:" (EAxios networkDown);
        apiErrorNotice (EAxios networkDown);
        UnhandledRejection (EAxios networkDown)].
Proof.
  pose proof (hover_failure_is_logged_and_notified_by_client
                envDown (world0 docAdd) docAdd (mkPosition 0 3)
                (mkRange (mkPosition 0 0) (mkPosition 2 1)) 0%nat networkDown
                eq_refl eq_refl eq_refl) as [[H1 _] H2].
  split; [exact H1|]. exact (H2 eq_refl eq_refl eq_refl).
Defined.

(** ** Claims about manual analysis *)

Lemma showAnalysisResult_effects (env : Env) (w : World) (v : JsValue) :
  exists extra,
    trace (snd (showAnalysisResult v env w)) = trace w ++ extra
    /\ requests (snd (showAnalysisResult v env w)) = requests w
    /\ complexityCache (snd (showAnalysisResult v env w)) = complexityCache w.
Proof.
  unfold showAnalysisResult, bind, lift, emit.
  repeat match goal with
         | |- context [match ?x with Returned _ => _ | Threw _ => _ end] =>
             destruct x
         end;
    cbn [snd trace requests complexityCache withTrace];
    eauto using app_nil_r.
Qed.

(** C10: with an active editor, [analyzeSelection] works on the selection,
    or on the whole document when the selection is empty.  When that text is
    empty or white space only, it shows 'No code selected', sends no request
    and leaves the cache alone; otherwise the text is what it sends to the
    classifier. *)
Theorem analyzeSelection_empty_selection_and_blank_text (env : Env) (w : World)
        (editor : nat) :
  activeTextEditor w = Some editor ->
  let outcome := analyzeSelection env w in
  let code := selectedText w editor in
  (isEmptyRange (selection w) = true -> code = getText (documents w editor))
  /\ (whitespaceOnly code = true ->
      fst outcome = Returned tt
      /\ trace (snd outcome) = trace w ++ [ShowErrorMessage [Lit "No code selected"]]
      /\ requests (snd outcome) = requests w
      /\ complexityCache (snd outcome) = complexityCache w)
  /\ (whitespaceOnly code = false ->
      exists rest,
        trace (snd outcome)
        = trace w ++ WithProgress "Analyzing code complexity..."
                  :: analyzeRequest w code :: rest).
Proof.
  intros Hed outcome code.
  assert (Hrun :
    analyzeSelection env w
    = if whitespaceOnly code
      then emit (ShowErrorMessage [Lit "No code selected"]) env w
      else (emit (WithProgress "Analyzing code complexity...") ;;;
            detached (result <- analyzeCode code ;; showAnalysisResult result))
             env w).
  { unfold analyzeSelection, bind at 1, get. rewrite Hed.
    fold (selectedText w editor). fold code. rewrite trim_empty.
    destruct (whitespaceOnly code); reflexivity. }
  subst outcome. rewrite Hrun. split; [|split].
  - intros Hsel. subst code. unfold selectedText. rewrite Hsel. reflexivity.
  - intros Hws. rewrite Hws. repeat split.
  - intros Hws. rewrite Hws.
    unfold bind at 1, emit at 1, detached, tryCatch, bind at 1.
    rewrite analyzeCode_run. cbn [requests withTrace trace].
    destruct (service env (requests w) code) as [r|e].
    + match goal with
      | |- context [showAnalysisResult ?v ?e ?w0] =>
          destruct (showAnalysisResult_effects e w0 v) as (extra & Htr & _);
          destruct (showAnalysisResult v e w0) as [[[]|err] w2]
      end; cbn [snd trace withTrace withRequests emit] in *.
      * exists extra. rewrite Htr, <- !app_assoc. reflexivity.
      * exists (extra ++ [UnhandledRejection err]).
        unfold emit. cbn [snd trace withTrace]. rewrite Htr, <- !app_assoc.
        reflexivity.
    + eexists. unfold emit. cbn [snd trace withTrace withRequests].
      rewrite <- !app_assoc. reflexivity.
Qed.

(** Witness for C10: an empty selection over a blank document, and over
    [docAdd]. *)
Lemma analyzeSelection_empty_selection_and_blank_text_witness :
  trace (snd (analyzeSelection envOk (world0 docBlank)))
  = [ShowErrorMessage [Lit "No code selected"]]
  /\ selectedText (world0 docAdd) 0 = getText docAdd.
Proof.
  split.
  - exact (proj1 (proj2 (proj1 (proj2
             (analyzeSelection_empty_selection_and_blank_text
                envOk (world0 docBlank) 0%nat eq_refl)) eq_refl))).
  - exact (proj1 (analyzeSelection_empty_selection_and_blank_text
                    envOk (world0 docAdd) 0%nat eq_refl) eq_refl).
Defined.

(** ** Claims about the scheduler pass *)

Section SchedulerPass.

Variable env : Env.

Lemma quiet_refl (w : World) : quiet w w.
Proof. unfold quiet. destruct w. reflexivity. Qed.

Lemma quiet_trans (w1 w2 w3 : World) : quiet w1 w2 -> quiet w2 w3 -> quiet w1 w3.
Proof. unfold quiet. intros H12 H23. rewrite H23, H12. reflexivity. Qed.

Lemma quiet_tick (w : World) (n : nat) : quiet w (withClockReads n w).
Proof. reflexivity. Qed.

(** [positionAt] never leaves the document. *)
Lemma positionIn_line (ls : list jsstring) (eolLen ln offset : nat) :
  ls <> [] ->
  (line (positionIn ls eolLen ln offset) < ln + length ls)%nat.
Proof.
  revert ln offset. induction ls as [|l rest IH]; intros ln offset Hne;
    [congruence|].
  destruct rest as [|l2 rest].
  - cbn. lia.
  - specialize (IH (S ln) (offset - (length l + eolLen))%nat ltac:(discriminate)).
    change (positionIn (l :: l2 :: rest) eolLen ln offset)
      with (if (offset <? length l + eolLen)%nat
            then mkPosition ln (Nat.min offset (length l))
            else positionIn (l2 :: rest) eolLen (S ln)
                   (offset - (length l + eolLen))).
    destruct (offset <? length l + eolLen)%nat.
    + cbn. lia.
    + cbn [length] in *. lia.
Qed.

Lemma getFunctionAtPosition_returns (d : TextDocument) (p : Position) :
  (line p < lineCount d)%nat ->
  exists r, getFunctionAtPosition d p = Returned r.
Proof.
  intros Hin.
  destruct (lookup_lt_is_Some_2 (lines d) (line p) Hin) as [text Hp].
  rewrite (getFunctionAtPosition_unfold d p text Hp).
  destruct (functionRegex_test text); [|eauto].
  destruct (closingLine d (line p)); eauto.
Qed.

Lemma createInlineDecoration_throws (r : Range) (v : JsValue) (e : JsError) :
  createInlineDecoration r v = Threw e -> e = ETypeError /\ nullish v = true.
Proof.
  unfold createInlineDecoration. destruct v; cbn; intros H;
    try discriminate; injection H as <-; split; reflexivity.
Qed.

Variable document : TextDocument.
Hypothesis document_has_lines : lines document <> [].

(** One round of the loop of the pass. *)
Lemma collectDecorations_step (index : nat) (rest : list nat)
      (decorations : list DecorationOptions) (w : World) :
  collectDecorations document (index :: rest) decorations env w
  = match getFunctionAtPosition document (positionAt document index) with
    | Threw e => (Threw e, w)
    | Returned None => collectDecorations document rest decorations env w
    | Returned (Some functionRange) =>
        match complexityCache w !! getCacheKey (getTextIn document functionRange) with
        | None => collectDecorations document rest decorations env w
        | Some cached =>
            let w1 := withClockReads (S (clockReads w)) w in
            if fresh cached (clock env (clockReads w)) then
              match createInlineDecoration functionRange (result cached) with
              | Returned decoration =>
                  collectDecorations document rest (decorations ++ [decoration]) env w1
              | Threw e => (Threw e, w1)
              end
            else collectDecorations document rest decorations env w1
        end
    end.
Proof.
  cbn [collectDecorations]. unfold bind at 1, lift.
  destruct (getFunctionAtPosition document (positionAt document index))
    as [[functionRange|]|e]; try reflexivity.
  unfold bind at 1. unfold bind at 1. rewrite lookupCached_run.
  unfold cacheGet.
  destruct (complexityCache w !! getCacheKey (getTextIn document functionRange))
    as [cached|]; [|reflexivity].
  cbv zeta. destruct (fresh cached (clock env (clockReads w))); [|reflexivity].
  unfold bind at 1, lift.
  destruct (createInlineDecoration functionRange (result cached)); reflexivity.
Qed.

(** The loop of the pass: the world changes by clock readings only, and
    the loop either ends with decorations that all render fresh cache
    entries, or stops on a cached result that is null or undefined. *)
Lemma collectDecorations_run (indices : list nat) :
  forall (decorations : list DecorationOptions) (w : World),
    (forall i, In i indices -> In i (matchIndices (getText document))) ->
    exists w',
      quiet w w'
      /\ ((exists new,
              collectDecorations document indices decorations env w
              = (Returned (decorations ++ new), w')
              /\ Forall (fromFreshHit env (complexityCache w) document) new)
          \/ (collectDecorations document indices decorations env w
              = (Threw ETypeError, w')
              /\ exists key cached,
                  complexityCache w !! key = Some cached
                  /\ nullish (result cached) = true)).
Proof.
  induction indices as [|index rest IH]; intros decorations w Hsub.
  - exists w. split; [apply quiet_refl|]. left. exists [].
    rewrite app_nil_r. split; [reflexivity | constructor].
  - assert (Hrest : forall i, In i rest -> In i (matchIndices (getText document)))
      by (intros i Hi; apply Hsub; right; exact Hi).
    assert (Hindex : In index (matchIndices (getText document)))
      by (apply Hsub; left; reflexivity).
    destruct (getFunctionAtPosition_returns document (positionAt document index))
      as [found Hfound].
    { unfold positionAt, lineCount.
      pose proof (positionIn_line (lines document)
                    (length (eolText (eol document))) 0 index document_has_lines).
      lia. }
    rewrite collectDecorations_step, Hfound.
    destruct found as [functionRange|]; [|apply IH, Hrest].
    destruct (complexityCache w !! getCacheKey (getTextIn document functionRange))
      as [cached|] eqn:Hkey; [|apply IH, Hrest].
    cbv zeta.
    destruct (fresh cached (clock env (clockReads w))) eqn:Hfresh.
    2:{ destruct (IH decorations (withClockReads (S (clockReads w)) w) Hrest)
          as (w' & Hq & Hcases).
        exists w'. split; [exact (quiet_trans _ _ _ (quiet_tick w _) Hq)|].
        exact Hcases. }
    destruct (createInlineDecoration functionRange (result cached))
      as [decoration|e] eqn:Hdec.
    + destruct (IH (decorations ++ [decoration])
                   (withClockReads (S (clockReads w)) w) Hrest)
        as (w' & Hq & [(new & Hrun & Hall) | Hthrown]).
      * exists w'. split; [exact (quiet_trans _ _ _ (quiet_tick w _) Hq)|].
        left. exists (decoration :: new). rewrite Hrun, <- app_assoc.
        split; [reflexivity|]. constructor; [|exact Hall].
        exists index, functionRange, cached, (clockReads w). auto.
      * exists w'. split; [exact (quiet_trans _ _ _ (quiet_tick w _) Hq)|].
        right. exact Hthrown.
    + apply createInlineDecoration_throws in Hdec as [-> Hnull].
      exists (withClockReads (S (clockReads w)) w).
      split; [apply quiet_tick|]. right. split; [reflexivity|]. eauto.
Qed.

End SchedulerPass.

(** The loop of the pass over all the matches of a document, with or
    without lines. *)
Lemma collectDecorations_total (env : Env) (document : TextDocument) (w : World) :
  exists w',
    quiet w w'
    /\ ((exists decorations,
            collectDecorations document (matchIndices (getText document)) [] env w
            = (Returned decorations, w')
            /\ Forall (fromFreshHit env (complexityCache w) document) decorations)
        \/ (collectDecorations document (matchIndices (getText document)) [] env w
            = (Threw ETypeError, w')
            /\ exists key cached,
                complexityCache w !! key = Some cached
                /\ nullish (result cached) = true)).
Proof.
  destruct (lines document) as [|l ls] eqn:Hlines.
  - exists w. split; [apply quiet_refl|]. left. exists [].
    unfold getText. rewrite Hlines. split; [reflexivity | constructor].
  - apply (collectDecorations_run env document); [|auto].
    rewrite Hlines. discriminate.
Qed.

(** What a pass is in terms of its loop. *)
Lemma updateInlineDecorations_run (env : Env) (w : World) (editor : nat) :
  updateInlineDecorations editor env w
  = if inlineEnabled w then
      match collectDecorations (documents w editor)
              (matchIndices (getText (documents w editor))) [] env w with
      | (Returned decorations, w') => emit (SetDecorations editor decorations) env w'
      | (Threw e, w') => (Threw e, w')
      end
    else (Returned tt, w).
Proof.
  unfold updateInlineDecorations, bind at 1, get.
  destruct (inlineEnabled w); reflexivity.
Qed.

Section PassOutcome.

Variable env : Env.

Lemma annotationsOf_throws (hits : list (Range * JsValue)) (e : JsError) :
  annotationsOf hits = Threw e ->
  e = ETypeError /\ Exists (fun hit => nullish (snd hit) = true) hits.
Proof.
  induction hits as [|[r v] rest IH]; [discriminate|].
  cbn [annotationsOf]. intros H.
  destruct (createInlineDecoration r v) as [decoration|e1] eqn:Hdec.
  - cbn [exc_bind] in H.
    destruct (annotationsOf rest) as [ds|e2]; [discriminate|].
    cbn [exc_bind] in H. injection H as ->.
    destruct (IH eq_refl) as [-> Hex]. split; [reflexivity|].
    apply Exists_cons_tl, Hex.
  - cbn [exc_bind] in H. injection H as ->.
    apply createInlineDecoration_throws in Hdec as [-> Hnull].
    split; [reflexivity|]. apply Exists_cons_hd. exact Hnull.
Qed.

(** Every hit is a span of the list with an entry in the cache whose
    result it carries, unexpired at a reading from [reads] on; a span
    without an entry is no hit; and a span whose entry is unexpired at
    every reading from [reads] on is one. *)
Lemma cacheHits_sound (cache : gmap string CachedComplexity)
      (document : TextDocument) (spans : list Range) :
  forall (reads : nat) (hit : Range * JsValue),
    In hit (cacheHits env cache document spans reads) ->
    In (fst hit) spans
    /\ exists cached n,
        cache !! getCacheKey (getTextIn document (fst hit)) = Some cached
        /\ snd hit = result cached
        /\ (reads <= n < reads + length spans)%nat
        /\ fresh cached (clock env n) = true.
Proof.
  induction spans as [|r rest IH]; intros reads hit Hin; [destruct Hin|].
  cbn [cacheHits] in Hin.
  destruct (cache !! getCacheKey (getTextIn document r)) as [cached|] eqn:Hkey.
  - apply in_app_or in Hin as [Hin|Hin].
    + destruct (fresh cached (clock env reads)) eqn:Hfresh; [|destruct Hin].
      destruct Hin as [<-|[]]. cbn [fst snd length].
      split; [left; reflexivity|]. exists cached, reads.
      repeat split; (assumption || lia).
    + destruct (IH _ _ Hin) as (Hspan & c & n & Hc & Hv & Hn & Hf).
      split; [right; exact Hspan|]. exists c, n. cbn [length].
      repeat split; (assumption || lia).
  - destruct (IH _ _ Hin) as (Hspan & c & n & Hc & Hv & Hn & Hf).
    split; [right; exact Hspan|]. exists c, n. cbn [length].
    repeat split; (assumption || lia).
Qed.

Lemma cacheHits_miss (cache : gmap string CachedComplexity)
      (document : TextDocument) (spans : list Range) (r : Range) (v : JsValue) :
  cache !! getCacheKey (getTextIn document r) = None ->
  forall reads, ~ In (r, v) (cacheHits env cache document spans reads).
Proof.
  intros Hmiss reads Hin.
  destruct (cacheHits_sound _ _ _ _ _ Hin) as (_ & c & n & Hc & _).
  cbn [fst] in Hc. congruence.
Qed.

Lemma cacheHits_complete (cache : gmap string CachedComplexity)
      (document : TextDocument) (spans : list Range) (r : Range)
      (cached : CachedComplexity) :
  In r spans ->
  cache !! getCacheKey (getTextIn document r) = Some cached ->
  forall reads,
    (forall n, (reads <= n)%nat -> fresh cached (clock env n) = true) ->
    In (r, result cached) (cacheHits env cache document spans reads).
Proof.
  intros Hin Hkey.
  induction spans as [|r0 rest IH]; intros reads Hfresh; [destruct Hin|].
  cbn [cacheHits]. destruct Hin as [->|Hin].
  - rewrite Hkey, (Hfresh reads) by lia. left. reflexivity.
  - destruct (cache !! getCacheKey (getTextIn document r0)).
    + apply in_or_app. right. apply IH; [exact Hin|].
      intros n Hn. apply Hfresh. lia.
    + apply IH; assumption.
Qed.

(** The loop of the pass collects the decorations of the unexpired hits
    among the spans at its indices, and changes the world by clock readings
    only. *)
Lemma collectDecorations_hits (document : TextDocument) (indices : list nat) :
  lines document <> [] ->
  forall (decorations : list DecorationOptions) (w : World),
    exists w',
      quiet w w'
      /\ collectDecorations document indices decorations env w
         = (match annotationsOf
                    (cacheHits env (complexityCache w) document
                       (spansAt document indices) (clockReads w)) with
            | Returned new => Returned (decorations ++ new)
            | Threw e => Threw e
            end, w').
Proof.
  intros Hlines.
  induction indices as [|index rest IH]; intros decorations w.
  - exists w. split; [apply quiet_refl|].
    cbn [spansAt cacheHits annotationsOf collectDecorations].
    rewrite app_nil_r. reflexivity.
  - destruct (getFunctionAtPosition_returns document (positionAt document index))
      as [found Hfound].
    { unfold positionAt, lineCount.
      pose proof (positionIn_line (lines document)
                    (length (eolText (eol document))) 0 index Hlines).
      lia. }
    rewrite collectDecorations_step. cbn [spansAt]. rewrite Hfound.
    destruct found as [functionRange|]; [|apply IH].
    cbn [cacheHits].
    destruct (complexityCache w !! getCacheKey (getTextIn document functionRange))
      as [cached|] eqn:Hkey; [|apply IH].
    cbv zeta.
    destruct (fresh cached (clock env (clockReads w))) eqn:Hfresh.
    2:{ destruct (IH decorations (withClockReads (S (clockReads w)) w))
          as (w' & Hq & Hrun).
        exists w'. split; [exact (quiet_trans _ _ _ (quiet_tick w _) Hq)|].
        exact Hrun. }
    cbn [app annotationsOf].
    destruct (createInlineDecoration functionRange (result cached))
      as [decoration|e] eqn:Hdec; cbn [exc_bind].
    + destruct (IH (decorations ++ [decoration])
                   (withClockReads (S (clockReads w)) w))
        as (w' & Hq & Hrun).
      exists w'. split; [exact (quiet_trans _ _ _ (quiet_tick w _) Hq)|].
      rewrite Hrun. cbn [complexityCache clockReads withClockReads].
      destruct (annotationsOf _) as [new|e]; cbn [exc_bind]; [|reflexivity].
      rewrite <- app_assoc. reflexivity.
    + exists (withClockReads (S (clockReads w)) w).
      split; [apply quiet_tick | reflexivity].
Qed.

(** A pass with inline analysis on: the editor's decorations are replaced
    by those of the hits, or the pass stops on a hit that cannot be
    rendered; beyond that only clock readings have been taken. *)
Lemma pass_outcome (w : World) (editor : nat) :
  inlineEnabled w = true ->
  exists n,
    updateInlineDecorations editor env w
    = match annotationsOf (passHits env w editor) with
      | Returned decorations =>
          (Returned tt,
           withTrace (trace w ++ [SetDecorations editor decorations])
                     (withClockReads n w))
      | Threw e => (Threw e, withClockReads n w)
      end.
Proof.
  intros Hon. rewrite updateInlineDecorations_run, Hon.
  unfold passHits, locatedSpans.
  destruct (lines (documents w editor)) as [|l ls] eqn:Hlines.
  - exists (clockReads w). unfold getText. rewrite Hlines.
    cbn. destruct w; reflexivity.
  - destruct (collectDecorations_hits (documents w editor)
                (matchIndices (getText (documents w editor)))
                ltac:(rewrite Hlines; discriminate) [] w)
      as (w' & Hq & Hrun).
    rewrite Hrun. exists (clockReads w'). unfold quiet in Hq.
    destruct (annotationsOf _) as [ds|e].
    + cbn [app emit]. rewrite Hq at 1 2.
      cbn [trace withClockReads]. reflexivity.
    + rewrite Hq at 1. reflexivity.
Qed.

End PassOutcome.

(** The hits of a pass on small inputs: the verdict cached for [docAdd] is
    the one hit of [worldCached], and the [null] a hover has cached is the
    one hit of [worldNull]. *)
Example hits_of_a_cached_verdict :
  passHits envOk worldCached 0
  = [(mkRange (mkPosition 0 0) (mkPosition 2 1), verdict)]
  /\ annotationsOf (passHits envOk worldCached 0) = Returned [sampleDecoration].
Proof. split; vm_compute; reflexivity. Qed.

(** C4, as stated, fails: after one hover on [docAdd] that the service
    answers with [null], inline analysis is on and the function's span has
    an unexpired entry in the cache, yet the pass renders no replacement
    set: it throws a TypeError before [setDecorations] is reached, and the
    trace is as it was. *)
Lemma null_answer_stops_the_pass :
  inlineEnabled worldNull = true
  /\ requests worldNull = 1%nat
  /\ passHits envNull worldNull 0
     = [(mkRange (mkPosition 0 0) (mkPosition 2 1), JNull)]
  /\ fst (updateInlineDecorations 0 envNull worldNull) = Threw ETypeError
  /\ trace (snd (updateInlineDecorations 0 envNull worldNull)) = trace worldNull
  /\ existsb isSetDecorations
       (trace (snd (updateInlineDecorations 0 envNull worldNull))) = false.
Proof. repeat split; vm_compute; reflexivity. Qed.

(** C4, amended: a scheduler pass sends no request and leaves the cache as
    it was.  When inline analysis is off it does nothing.  When it is on,
    it takes the spans located at the matches of the start pattern in
    document order and looks each span's text up in the cache, reading the
    clock once for each span that has an entry; the unexpired entries are
    the hits.  When every hit can be rendered, the pass replaces the
    editor's decorations by exactly the decorations of the hits, in order:
    spans without an entry or with an expired one contribute nothing.  When
    a hit holds [null] or [undefined], the pass throws a TypeError and
    renders nothing.  Beyond the new set of decorations and the readings of
    the clock the world is as it was. *)
Theorem scheduler_pass_renders_from_cache_only (env : Env) (w : World)
        (editor : nat) :
  let outcome := updateInlineDecorations editor env w in
  let hits := passHits env w editor in
  requests (snd outcome) = requests w
  /\ complexityCache (snd outcome) = complexityCache w
  /\ exists extra reads,
      snd outcome = withTrace (trace w ++ extra) (withClockReads reads w)
      /\ existsb isHttpPost extra = false
      /\ (inlineEnabled w = false -> fst outcome = Returned tt /\ extra = [])
      /\ (inlineEnabled w = true ->
          match annotationsOf hits with
          | Returned decorations =>
              fst outcome = Returned tt
              /\ extra = [SetDecorations editor decorations]
          | Threw _ =>
              fst outcome = Threw ETypeError
              /\ extra = []
              /\ Exists (fun hit => nullish (snd hit) = true) hits
          end).
Proof.
  intros outcome hits. subst outcome hits.
  destruct (inlineEnabled w) eqn:Hen.
  2:{ rewrite updateInlineDecorations_run, Hen. cbn [fst snd].
      repeat split. exists [], (clockReads w). rewrite app_nil_r.
      repeat split; [destruct w; reflexivity | discriminate]. }
  destruct (pass_outcome env w editor Hen) as [n Hrun]. rewrite Hrun.
  destruct (annotationsOf (passHits env w editor)) as [ds|e] eqn:Hann.
  - cbn [fst snd requests complexityCache trace withTrace withClockReads].
    repeat split. exists [SetDecorations editor ds], n.
    repeat split. discriminate.
  - destruct (annotationsOf_throws _ _ Hann) as [-> Hex].
    cbn [fst snd requests complexityCache trace withTrace withClockReads].
    repeat split. exists [], n. rewrite app_nil_r.
    repeat split; (discriminate || exact Hex).
Qed.

(** ** Claims about the debounce *)

Section Debounce.

Variable env : Env.
Variable editor : nat.
Variable horizon : Z.

(** A timer callback leaves one event on the trace, a pass's
    [setDecorations] or its unhandled rejection, and changes nothing else
    but the number of clock readings. *)
Lemma callback_run (w : World) (target : nat) :
  inlineEnabled w = true ->
  exists n ev,
    runListener (detached (updateInlineDecorations target)) env w
    = withTrace (trace w ++ [ev]) (withClockReads n w).
Proof.
  intros Hen. unfold runListener, detached, tryCatch.
  rewrite updateInlineDecorations_run, Hen.
  destruct (collectDecorations_total env (documents w target) w)
    as (w' & Hq & [(ds & Hloop & _) | (Hloop & _)]);
    rewrite Hloop; unfold quiet in Hq; rewrite Hq;
    eexists _, _; reflexivity.
Qed.

Lemma insertTimer_length (t : Timer) (ts : list Timer) :
  length (insertTimer t ts) = S (length ts).
Proof.
  induction ts as [|t' ts IH]; [reflexivity|].
  cbn [insertTimer]. destruct (due t <? due t'); cbn [length]; lia.
Qed.

Lemma insertTimer_Forall (P : Timer -> Prop) (t : Timer) (ts : list Timer) :
  P t -> Forall P ts -> Forall P (insertTimer t ts).
Proof.
  intros Ht Hts. induction Hts as [|t' ts Ht' Hts IH]; cbn [insertTimer].
  - constructor; [exact Ht | constructor].
  - destruct (due t <? due t'); repeat constructor; assumption.
Qed.

(** Firing timers trades pending timers for passes, one for one. *)
Lemma fireTimers_scheduled (queue : list Timer) (t : Z) :
  forall (k : nat) (w : World),
    timers w = queue ->
    scheduled editor horizon k w ->
    scheduled editor horizon k (fireTimers queue t env w).
Proof.
  induction queue as [|tm rest IH]; intros k w Hq Hs; [exact Hs|].
  cbn [fireTimers]. destruct (due tm <=? t); [|exact Hs].
  destruct Hs as (Hen & Hed & Hdue & Hk).
  destruct (callback_run (atTime (due tm) (withTimers rest w)) (timerEditor tm) Hen)
    as (n & ev & Hrun).
  rewrite Hrun. apply IH; [reflexivity|].
  rewrite Hq in Hdue, Hk. inversion Hdue; subst.
  repeat split; cbn [inlineEnabled activeTextEditor timers trace withTrace
                     withClockReads atTime withTimers]; try assumption.
  rewrite length_app. cbn [length] in *. lia.
Qed.

(** By the horizon every pending timer has fired. *)
Lemma fireTimers_drains (queue : list Timer) :
  forall (k : nat) (w : World),
    timers w = queue ->
    scheduled editor horizon k w ->
    timers (fireTimers queue horizon env w) = [].
Proof.
  induction queue as [|tm rest IH]; intros k w Hq Hs; [exact Hq|].
  destruct Hs as (Hen & Hed & Hdue & Hk).
  rewrite Hq in Hdue, Hk. inversion Hdue as [|? ? Htm Hrest]; subst.
  cbn [fireTimers].
  replace (due tm <=? horizon) with true by (symmetry; apply Z.leb_le; lia).
  destruct (callback_run (atTime (due tm) (withTimers rest w)) (timerEditor tm) Hen)
    as (n & ev & Hrun).
  rewrite Hrun. eapply IH; [reflexivity|].
  repeat split; cbn [inlineEnabled activeTextEditor timers trace withTrace
                     withClockReads atTime withTimers]; try assumption.
Qed.

Lemma advanceTo_scheduled (t : Z) (k : nat) (w : World) :
  scheduled editor horizon k w ->
  scheduled editor horizon k (advanceTo t env w) /\ time (advanceTo t env w) = t.
Proof.
  intros Hs. unfold advanceTo. split; [|reflexivity].
  exact (fireTimers_scheduled (timers w) t k w eq_refl Hs).
Qed.

(** An edit of the active document sets one more timer and cancels none. *)
Lemma edit_scheduled (e : HostEvent) (k : nat) (w : World) :
  isEditOf editor e ->
  time w + 500 <= horizon ->
  scheduled editor horizon k w ->
  scheduled editor horizon (S k) (dispatch e env w).
Proof.
  intros He Ht (Hen & Hed & Hdue & Hk).
  destruct e as [id content|]; [|contradiction]. cbn in He. subst id.
  unfold dispatch, runListener, onDidChangeTextDocument, bind, get.
  cbn [activeTextEditor inlineEnabled withDocument]. rewrite Hed, Hen.
  rewrite bool_decide_eq_true_2 by reflexivity. cbn [andb snd setTimeout].
  repeat split; cbn [inlineEnabled activeTextEditor timers trace withTimers
                     withDocument time]; try assumption.
  - apply insertTimer_Forall; [cbn [due]; lia | exact Hdue].
  - rewrite insertTimer_length. lia.
Qed.

(** Every edit of the active document runs a pass of its own: after [n]
    edits, however close together, [n] more passes have run by the time all
    timers have fired. *)
Lemma every_edit_runs_a_pass (edits : list (Z * HostEvent)) :
  forall (k : nat) (w : World),
    Forall (fun te => isEditOf editor (snd te) /\ fst te + 500 <= horizon) edits ->
    scheduled editor horizon k w ->
    timers (runHost edits horizon env w) = []
    /\ length (trace (runHost edits horizon env w)) = (k + length edits)%nat.
Proof.
  induction edits as [|[t e] rest IH]; intros k w Hall Hs.
  - cbn [runHost length]. unfold advanceTo.
    pose proof (fireTimers_drains (timers w) k w eq_refl Hs) as Hnone.
    pose proof (fireTimers_scheduled (timers w) horizon k w eq_refl Hs)
      as (_ & _ & _ & Hk).
    cbn [timers trace atTime]. rewrite Hnone in *. cbn [length] in Hk.
    split; [reflexivity | lia].
  - inversion Hall as [|? ? [He Ht] Hrest]; subst. cbn [fst snd] in *.
    cbn [runHost length].
    destruct (advanceTo_scheduled t k w Hs) as [Hs1 Htime].
    assert (Hs2 : scheduled editor horizon (S k) (dispatch e env (advanceTo t env w)))
      by (apply edit_scheduled; [exact He | lia | exact Hs1]).
    destruct (IH (S k) _ Hrest Hs2) as [Hnone Hlen].
    split; [exact Hnone | lia].
Qed.

End Debounce.

(** C2 fails on the code.  Two edits of the active document, 100 ms apart,
    are delivered to a world whose cache holds a fresh verdict for the
    function of [docAdd].  Both timers are pending after the second edit,
    and once time has run on, the pass has executed twice, each time on the
    text of the last edit. *)
Theorem two_quick_edits_run_two_passes :
  let edits := [(0, TextDocumentChanged 0 docOpen);
                (100, TextDocumentChanged 0 docAdd)] in
  let w := withCache (cachePut ∅ (getText docAdd) verdict 1000) (world0 docBlank) in
  timers (runHost edits 499 envOk w) = [mkTimer 500 0; mkTimer 600 0]
  /\ trace (runHost edits 499 envOk w) = []
  /\ (exists decoration,
        createInlineDecoration (mkRange (mkPosition 0 0) (mkPosition 2 1)) verdict
        = Returned decoration
        /\ trace (runHost edits 1000 envOk w)
           = [SetDecorations 0 [decoration]; SetDecorations 0 [decoration]])
  /\ length (List.filter isSetDecorations (trace (runHost edits 1000 envOk w))) = 2%nat.
Proof.
  cbv zeta. split; [|split; [|split]].
  - vm_compute. reflexivity.
  - vm_compute. reflexivity.
  - eexists. split; vm_compute; reflexivity.
  - vm_compute. reflexivity.
Qed.

(** * Further properties of the code *)

(** ** The locator: bounds and the shape of a span *)

(** X1: [getFunctionAtPosition] throws exactly when the position's line is
    outside the document, and then it is the host's illegal-line error; no
    other line it reads on the way can be outside. *)
Theorem locator_throws_exactly_outside_document (d : TextDocument) (p : Position) :
  (getFunctionAtPosition d p = Threw EIllegalLine <-> (lineCount d <= line p)%nat)
  /\ (forall e, getFunctionAtPosition d p = Threw e -> e = EIllegalLine).
Proof.
  destruct (lines d !! line p) as [text|] eqn:Hp.
  - pose proof (lookup_lt_Some _ _ _ Hp) as Hlt.
    rewrite (getFunctionAtPosition_unfold d p text Hp).
    destruct (functionRegex_test text); [destruct (closingLine d (line p))|];
      (split; [split; [discriminate | unfold lineCount; lia] | discriminate]).
  - pose proof (lookup_ge_None_1 _ _ Hp) as Hge.
    unfold getFunctionAtPosition, lineAt. rewrite Hp. cbn [exc_bind].
    split; [split; [intros _; exact Hge | reflexivity]|].
    intros e He. injection He as <-. reflexivity.
Qed.



(** ** The cache key as a polynomial *)

Section Polynomial.

Lemma toInt32_id (z : Z) : -2147483648 <= z < 2147483648 -> toInt32 z = z.
Proof.
  intros Hz. unfold toInt32. rewrite Z.mod_small by lia. lia.
Qed.

Lemma cong32_refl (a : Z) : cong32 a a.
Proof. exists 0. lia. Qed.

Lemma cong32_trans (a b c : Z) : cong32 a b -> cong32 b c -> cong32 a c.
Proof. intros [k1 H1] [k2 H2]. exists (k1 + k2). lia. Qed.

Lemma cong32_sym (a b : Z) : cong32 a b -> cong32 b a.
Proof. intros [k H]. exists (- k). lia. Qed.

Lemma fold_hashStep_cong (code : jsstring) :
  forall h h', cong32 h h' -> cong32 (fold_left hashStep code h) (polyFrom h' code).
Proof.
  induction code as [|c code IH]; intros h h' Hh; [exact Hh|].
  cbn [fold_left polyFrom]. apply IH.
  apply (cong32_trans _ (31 * h + c)); [apply hashStep_cong|].
  destruct Hh as [k Hk]. exists (31 * k). lia.
Qed.

Lemma fold_hashStep_range (code : jsstring) (h : Z) :
  -2147483648 <= h < 2147483648 ->
  -2147483648 <= fold_left hashStep code h < 2147483648.
Proof.
  revert h. induction code as [|c code IH]; intros h Hh; [exact Hh|].
  cbn [fold_left]. apply IH. rewrite hashStep_eq. apply toInt32_range.
Qed.

Lemma hashCode_polyFrom (code : jsstring) :
  hashCode code = toInt32 (polyFrom 0 code).
Proof.
  rewrite <- (toInt32_id (hashCode code)).
  - apply toInt32_of_cong, fold_hashStep_cong, cong32_refl.
  - apply fold_hashStep_range. lia.
Qed.

Lemma polyFrom_shift (code : jsstring) (h : Z) :
  polyFrom h code = 31 ^ Z.of_nat (length code) * h + polyFrom 0 code.
Proof.
  revert h. induction code as [|c code IH]; intros h.
  - cbn. lia.
  - cbn [polyFrom fold_left length]. fold (polyFrom (31 * h + c) code).
    fold (polyFrom (31 * 0 + c) code).
    rewrite (IH (31 * h + c)), (IH (31 * 0 + c)).
    rewrite Nat2Z.inj_succ, Z.pow_succ_r by lia. ring.
Qed.

Lemma polyFrom_app (a b : jsstring) (h : Z) :
  polyFrom h (a ++ b) = polyFrom (polyFrom h a) b.
Proof. unfold polyFrom. apply fold_left_app. Qed.

Lemma hashCode_cong_poly (c1 c2 : jsstring) :
  hashCode c1 = hashCode c2 -> cong32 (polyFrom 0 c1) (polyFrom 0 c2).
Proof.
  intros H. rewrite !hashCode_polyFrom in H.
  apply (cong32_trans _ (toInt32 (polyFrom 0 c1))).
  - apply cong32_sym, toInt32_cong.
  - rewrite H. apply toInt32_cong.
Qed.

End Polynomial.

(** X3: the cache key of a text is the decimal text of the signed 32-bit
    value of the polynomial [c0*31^(n-1) + ... + c(n-1)] over its code
    units; in particular the hash stays within 32 bits however long the
    text. *)
Theorem cache_key_is_a_wrapped_polynomial (code : jsstring) :
  getCacheKey code = pretty (toInt32 (polyFrom 0 code))
  /\ -2147483648 <= hashCode code < 2147483648.
Proof.
  split.
  - unfold getCacheKey. rewrite hashCode_polyFrom. reflexivity.
  - apply fold_hashStep_range. lia.
Qed.

(** X4: a collision spreads.  When two texts have the same key, so have
    the texts made of them by appending a common text; when they also have
    the same length, so have the texts made by putting them into any common
    context. *)
Theorem key_collisions_spread (c1 c2 : jsstring) :
  getCacheKey c1 = getCacheKey c2 ->
  (forall post, getCacheKey (c1 ++ post) = getCacheKey (c2 ++ post))
  /\ (length c1 = length c2 ->
      forall pre post,
        getCacheKey (pre ++ c1 ++ post) = getCacheKey (pre ++ c2 ++ post)).
Proof.
  intros Hkey. apply getCacheKey_inj_hash in Hkey. split.
  - intros post. apply getCacheKey_inj_hash. unfold hashCode in *.
    rewrite !fold_left_app, Hkey. reflexivity.
  - intros Hlen pre post. apply getCacheKey_inj_hash.
    rewrite !app_assoc. unfold hashCode. rewrite !(fold_left_app _ _ post).
    f_equal. fold (hashCode (pre ++ c1)). fold (hashCode (pre ++ c2)).
    rewrite !hashCode_polyFrom. apply toInt32_of_cong.
    rewrite !polyFrom_app, (polyFrom_shift c1), (polyFrom_shift c2), Hlen.
    destruct (hashCode_cong_poly c1 c2 Hkey) as [k Hk]. exists k. lia.
Qed.

(** Witness for X4: the two runs of white space of [codeA] and [codeB]. *)
Lemma key_collisions_spread_witness :
  getCacheKey codeA = getCacheKey codeB.
Proof.
  refine (proj2 (key_collisions_spread spacesA spacesB _) eq_refl
            (u16 "function f() {") (u16 "}")).
  vm_compute. reflexivity.
Defined.

(** ** The global pattern: every match consumes input *)

Section Progress.

Context {A : Type}.

Lemma star_suffix (p : cclass) (k : jsstring -> option A) (a : A) (s : jsstring) :
  rmatch (RStar p) s k = Some a ->
  exists s', k s' = Some a /\ (length s' <= length s)%nat.
Proof.
  induction s as [|x s IH]; cbn [rmatch]; intros H.
  - exists []. split; [exact H | lia].
  - destruct (cclass_mem p x).
    + change ((fix star (s0 : list Z) : option A :=
                 match s0 with
                 | [] => k s0
                 | x0 :: s'0 =>
                     if cclass_mem p x0
                     then match star s'0 with
                          | Some a0 => Some a0
                          | None => k s0
                          end
                     else k s0
                 end) s) with (rmatch (RStar p) s k) in H.
      destruct (rmatch (RStar p) s k) as [a'|] eqn:Hs.
      * injection H as ->. destruct (IH eq_refl) as (s' & Hk & Hlen).
        exists s'. split; [exact Hk | cbn [length]; lia].
      * exists (x :: s). split; [exact H | lia].
    + exists (x :: s). split; [exact H | lia].
Qed.

(** A match hands the rest of the input to what follows, and what is left
    is shorter when the expression cannot match the empty string. *)
Lemma rmatch_suffix (r : regex) :
  forall (s : jsstring) (k : jsstring -> option A) (a : A),
    rmatch r s k = Some a ->
    exists s',
      k s' = Some a
      /\ (length s' <= length s)%nat
      /\ (consuming r = true -> (length s' < length s)%nat).
Proof.
  induction r as [|c|p|r1 IH1 r2 IH2|r1 IH1 r2 IH2|r1 IH1|p]; intros s k a H.
  - exists s. cbn in *. repeat split; [exact H | lia | discriminate].
  - destruct s as [|x s]; cbn [rmatch] in H; [discriminate|].
    destruct (x =? c); [|discriminate].
    exists s. cbn [length]. repeat split; [exact H | lia | lia].
  - destruct s as [|x s]; cbn [rmatch] in H; [discriminate|].
    destruct (cclass_mem p x); [|discriminate].
    exists s. cbn [length]. repeat split; [exact H | lia | lia].
  - cbn [rmatch] in H.
    destruct (IH1 _ _ _ H) as (s1 & H1 & Hle1 & Hlt1).
    destruct (IH2 _ _ _ H1) as (s2 & H2 & Hle2 & Hlt2).
    exists s2. split; [exact H2|]. split; [lia|].
    cbn [consuming]. intros Hc. apply orb_true_iff in Hc as [Hc|Hc].
    + specialize (Hlt1 Hc). lia.
    + specialize (Hlt2 Hc). lia.
  - cbn [rmatch] in H. cbn [consuming].
    destruct (rmatch r1 s k) as [a1|] eqn:H1.
    + injection H as ->. destruct (IH1 _ _ _ H1) as (s' & Hk & Hle & Hlt).
      exists s'. repeat split; [exact Hk | exact Hle |].
      intros Hc. apply andb_true_iff in Hc as [Hc _]. exact (Hlt Hc).
    + destruct (IH2 _ _ _ H) as (s' & Hk & Hle & Hlt).
      exists s'. repeat split; [exact Hk | exact Hle |].
      intros Hc. apply andb_true_iff in Hc as [_ Hc]. exact (Hlt Hc).
  - cbn [rmatch] in H. cbn [consuming].
    destruct (rmatch r1 s k) as [a1|] eqn:H1.
    + injection H as ->. destruct (IH1 _ _ _ H1) as (s' & Hk & Hle & _).
      exists s'. repeat split; [exact Hk | exact Hle | discriminate].
    + exists s. repeat split; [exact H | lia | discriminate].
  - destruct (star_suffix p k a s H) as (s' & Hk & Hle).
    exists s'. repeat split; [exact Hk | exact Hle | discriminate].
Qed.

End Progress.

Lemma execAll_bounds (s : jsstring) :
  forall (prev : option Z) (idx skip : nat),
    Forall (fun i => (idx <= i < idx + length s)%nat) (execAll prev idx skip s)
    /\ StronglySorted lt (execAll prev idx skip s).
Proof.
  induction s as [|c s IH]; intros prev idx skip; cbn [execAll].
  - split; constructor.
  - assert (Htail : forall p k,
              Forall (fun i => (idx < i < idx + length (c :: s))%nat)
                     (execAll p (S idx) k s)).
    { intros p k. destruct (IH p (S idx) k) as [Hb _].
      eapply Forall_impl; [exact Hb|]. cbn [length]. intros i Hi. cbn beta in Hi. lia. }
    assert (Hweak : forall p k,
              Forall (fun i => (idx <= i < idx + length (c :: s))%nat)
                     (execAll p (S idx) k s)).
    { intros p k. eapply Forall_impl; [exact (Htail p k)|]. intros i Hi. cbn beta in Hi. lia. }
    destruct skip as [|n]; [|split; [apply Hweak | apply IH]].
    destruct (lineStart prev); [|split; [apply Hweak | apply IH]].
    destruct (rmatch functionRegexGM (c :: s) (fun rest => Some rest));
      [|split; [apply Hweak | apply IH]].
    split.
    + constructor; [cbn [length]; lia | apply Hweak].
    + constructor; [apply IH|].
      eapply Forall_impl; [exact (Htail (Some c) _)|]. intros i Hi. cbn beta in Hi. lia.
Qed.

(** X5: the loop over the matches of the global pattern advances and stays
    in the text.  A match never is empty, so [exec] moves [lastIndex]
    forward each time; the indices it reports are strictly increasing and
    each lies inside the text. *)
Theorem global_matches_advance (text : jsstring) :
  (forall s rest,
      rmatch functionRegexGM s (fun rest => Some rest) = Some rest ->
      (length rest < length s)%nat)
  /\ StronglySorted lt (matchIndices text)
  /\ Forall (fun i => (i < length text)%nat) (matchIndices text).
Proof.
  split; [|split].
  - intros s rest H.
    destruct (rmatch_suffix functionRegexGM s _ rest H) as (s' & Hk & _ & Hlt).
    injection Hk as ->. apply Hlt. reflexivity.
  - apply execAll_bounds.
  - destruct (execAll_bounds text None 0 0) as [Hb _].
    eapply Forall_impl; [exact Hb|]. intros i Hi. cbn in Hi. lia.
Qed.

(** ** Hover: what one query does to the world *)

Section HoverRuns.

Variable env : Env.
Variable w : World.
Variable document : TextDocument.
Variable position : Position.
Variable functionRange : Range.

Local Abbreviation functionCode := (getTextIn document functionRange).
Local Abbreviation stampIndex := (writeIndex w (getTextIn document functionRange)).

Hypothesis located :
  getFunctionAtPosition document position = Returned (Some functionRange).

Lemma provideHover_hit (v : JsValue) :
  cacheGet (complexityCache w) functionCode (clock env (clockReads w)) = Some v ->
  provideHover document position env w
  = (match createHoverMarkdown v with
     | Returned hover => Returned (Some hover)
     | Threw e => Threw e
     end,
     withClockReads (S (clockReads w)) w).
Proof.
  intros Hhit. unfold provideHover, bind at 1, lift. rewrite located.
  unfold bind at 1. rewrite lookupCached_run. rewrite Hhit.
  unfold cacheGet in Hhit.
  destruct (complexityCache w !! getCacheKey functionCode); [|discriminate].
  unfold bind, lift, ret. destruct (createHoverMarkdown v); reflexivity.
Qed.

Lemma provideHover_miss_resolved (r : AxiosResponse) :
  cacheGet (complexityCache w) functionCode (clock env (clockReads w)) = None ->
  service env (requests w) functionCode = Resolved r ->
  let stored :=
    withCache (cachePut (complexityCache w) functionCode (data r)
                        (clock env stampIndex))
      (withClockReads (S stampIndex)
         (withRequests (S (requests w))
            (withTrace (trace w ++ [analyzeRequest w functionCode]) w))) in
  provideHover document position env w
  = match createHoverMarkdown (data r) with
    | Returned hover => (Returned (Some hover), stored)
    | Threw e =>
        (Returned None,
         withTrace
           (trace stored
            ++ [ConsoleError "Failed to analyze function on hover:" e])
           stored)
    end.
Proof.
  intros Hmiss Hok. cbv zeta.
  unfold provideHover, bind at 1, lift. rewrite located.
  unfold bind at 1. rewrite lookupCached_run. rewrite Hmiss.
  unfold tryCatch, bind at 1. rewrite analyzeCode_run.
  unfold writeIndex.
  destruct (complexityCache w !! getCacheKey functionCode);
    cbn [requests withClockReads]; rewrite Hok;
    unfold bind at 1; rewrite storeResult_run;
    unfold bind, lift, ret, emit; destruct (createHoverMarkdown (data r));
    reflexivity.
Qed.

Lemma provideHover_miss_rejected (e : AxiosError) :
  cacheGet (complexityCache w) functionCode (clock env (clockReads w)) = None ->
  service env (requests w) functionCode = Rejected e ->
  provideHover document position env w
  = (Returned None,
     withClockReads (match complexityCache w !! getCacheKey functionCode with
                     | Some _ => S (clockReads w)
                     | None => clockReads w
                     end)
       (withRequests (S (requests w))
          (withTrace
             ((((trace w ++ [analyzeRequest w functionCode])
                ++ [ConsoleError "API Error:" (EAxios e)])
               ++ [apiErrorNotice (EAxios e)])
              ++ [ConsoleError "Failed to analyze function on hover:" (EAxios e)])
             w))).
Proof.
  intros Hmiss Hfail.
  unfold provideHover, bind at 1, lift. rewrite located.
  unfold bind at 1. rewrite lookupCached_run. rewrite Hmiss.
  unfold tryCatch, bind at 1. rewrite analyzeCode_run.
  destruct (complexityCache w !! getCacheKey functionCode);
    cbn [requests withClockReads]; rewrite Hfail; reflexivity.
Qed.

End HoverRuns.

(** X6: a hover on a line that does not match the start pattern, a line of
    a function's body say, does nothing at all: no request, no reading of
    the clock or the cache, no log entry, and no hover. *)
Theorem hover_off_a_declaration_does_nothing (env : Env) (w : World)
        (d : TextDocument) (p : Position) (text : jsstring) :
  lines d !! line p = Some text ->
  functionRegex_test text = false ->
  provideHover d p env w = (Returned None, w).
Proof.
  intros Hp Ht. unfold provideHover, bind, lift.
  rewrite (getFunctionAtPosition_unfold d p text Hp), Ht. reflexivity.
Qed.

(** Witness for X6: the body line of [docAdd]. *)
Lemma hover_off_a_declaration_does_nothing_witness :
  provideHover docAdd (mkPosition 1 3) envOk (world0 docAdd)
  = (Returned None, world0 docAdd).
Proof.
  exact (hover_off_a_declaration_does_nothing envOk (world0 docAdd) docAdd
           (mkPosition 1 3) (u16 "  return a + b;") eq_refl eq_refl).
Defined.

(** X7: a hover that misses the cache sends one request, whose body is the
    exact text of the span, and, when the answer can be rendered, returns
    its rendering.  From then on, in any world with that cache and a clock
    reading within the lifetime of the entry, the same hover returns the
    same rendering without a request and without any other effect. *)
Theorem second_hover_is_answered_from_the_cache (env : Env) (w w2 : World)
        (document : TextDocument) (position : Position) (functionRange : Range)
        (r : AxiosResponse) (hover : Hover) :
  let functionCode := getTextIn document functionRange in
  let first := provideHover document position env w in
  let second := provideHover document position env w2 in
  getFunctionAtPosition document position = Returned (Some functionRange) ->
  cacheGet (complexityCache w) functionCode (clock env (clockReads w)) = None ->
  service env (requests w) functionCode = Resolved r ->
  createHoverMarkdown (data r) = Returned hover ->
  complexityCache w2 = complexityCache (snd first) ->
  clock env (clockReads w2)
  < clock env (writeIndex w functionCode) + CACHE_DURATION ->
  (fst first = Returned (Some hover)
   /\ requests (snd first) = S (requests w)
   /\ trace (snd first) = trace w ++ [analyzeRequest w functionCode])
  /\ (fst second = Returned (Some hover)
      /\ requests (snd second) = requests w2
      /\ trace (snd second) = trace w2
      /\ complexityCache (snd second) = complexityCache w2).
Proof.
  intros functionCode first second Hloc Hmiss Hok Hrender Hcache Hfresh.
  assert (Hfirst := provideHover_miss_resolved env w document position
                      functionRange Hloc r Hmiss Hok).
  cbv zeta in Hfirst. rewrite Hrender in Hfirst.
  subst first second. rewrite Hfirst in *. cbn [fst snd] in *. split.
  - repeat split.
  - cbn [complexityCache withCache] in Hcache.
    rewrite (provideHover_hit env w2 document position functionRange Hloc (data r)).
    + rewrite Hrender. repeat split.
    + rewrite Hcache, cacheGet_cachePut. fold functionCode.
      replace (_ <? CACHE_DURATION) with true; [reflexivity|].
      symmetry. apply Z.ltb_lt. lia.
Qed.

(** Witness for X7: two hovers on the declaration of [docAdd], the service
    answering with [verdict]. *)
Lemma second_hover_is_answered_from_the_cache_witness :
  requests (snd (provideHover docAdd (mkPosition 0 3) envOk
                   (snd (provideHover docAdd (mkPosition 0 3) envOk
                           (world0 docAdd)))))
  = 1%nat.
Proof.
  pose proof (second_hover_is_answered_from_the_cache envOk (world0 docAdd)
                (snd (provideHover docAdd (mkPosition 0 3) envOk (world0 docAdd)))
                docAdd (mkPosition 0 3)
                (mkRange (mkPosition 0 0) (mkPosition 2 1))
                (mkResponse 200 verdict)) as H.
  cbv zeta in H.
  destruct (H _ eq_refl eq_refl eq_refl eq_refl eq_refl) as [_ (_ & Hreq & _)].
  - vm_compute. reflexivity.
  - exact Hreq.
Defined.

(** X8: the answer is cached before it is rendered.  When the service's
    answer cannot be rendered (rendering throws), the hover that fetched it
    logs the failure and returns nothing, but the answer stays in the
    cache; while that entry is fresh, every hover on the same text fails
    with the rendering error, and no request is made that could replace
    it. *)
Theorem unrenderable_answer_poisons_the_cache (env : Env) (w w2 : World)
        (document : TextDocument) (position : Position) (functionRange : Range)
        (r : AxiosResponse) (e : JsError) :
  let functionCode := getTextIn document functionRange in
  let first := provideHover document position env w in
  let second := provideHover document position env w2 in
  getFunctionAtPosition document position = Returned (Some functionRange) ->
  cacheGet (complexityCache w) functionCode (clock env (clockReads w)) = None ->
  service env (requests w) functionCode = Resolved r ->
  createHoverMarkdown (data r) = Threw e ->
  complexityCache w2 = complexityCache (snd first) ->
  clock env (clockReads w2)
  < clock env (writeIndex w functionCode) + CACHE_DURATION ->
  (fst first = Returned None
   /\ trace (snd first)
      = trace w ++ [analyzeRequest w functionCode;
                    ConsoleError "Failed to analyze function on hover:" e]
   /\ complexityCache (snd first) !! getCacheKey functionCode
      = Some (mkCached (data r) functionCode
                       (clock env (writeIndex w functionCode))))
  /\ (fst second = Threw e
      /\ requests (snd second) = requests w2
      /\ trace (snd second) = trace w2).
Proof.
  intros functionCode first second Hloc Hmiss Hok Hrender Hcache Hfresh.
  assert (Hfirst := provideHover_miss_resolved env w document position
                      functionRange Hloc r Hmiss Hok).
  cbv zeta in Hfirst. rewrite Hrender in Hfirst.
  subst first second. rewrite Hfirst in *. cbn [fst snd] in *. split.
  - cbn [trace complexityCache withTrace withCache withClockReads withRequests].
    rewrite <- app_assoc. repeat split.
    unfold cachePut. apply lookup_insert_eq.
  - cbn [complexityCache withCache withTrace] in Hcache.
    rewrite (provideHover_hit env w2 document position functionRange Hloc (data r)).
    + rewrite Hrender. repeat split.
    + rewrite Hcache, cacheGet_cachePut. fold functionCode.
      replace (_ <? CACHE_DURATION) with true; [reflexivity|].
      symmetry. apply Z.ltb_lt. lia.
Qed.

(** Witness for X8: the service answers [null]. *)
Lemma unrenderable_answer_poisons_the_cache_witness :
  fst (provideHover docAdd (mkPosition 0 3) envNull
         (snd (provideHover docAdd (mkPosition 0 3) envNull (world0 docAdd))))
  = Threw ETypeError.
Proof.
  pose proof (unrenderable_answer_poisons_the_cache envNull (world0 docAdd)
                (snd (provideHover docAdd (mkPosition 0 3) envNull (world0 docAdd)))
                docAdd (mkPosition 0 3)
                (mkRange (mkPosition 0 0) (mkPosition 2 1))
                (mkResponse 200 JNull) ETypeError) as H.
  cbv zeta in H.
  destruct (H eq_refl eq_refl eq_refl eq_refl eq_refl) as [_ (Hthrown & _)].
  - vm_compute. reflexivity.
  - exact Hthrown.
Defined.

(** X9: an expired entry is replaced on the next hover.  When the entry for
    the span's text has outlived its five minutes, the hover sends a request
    and, on an answer, overwrites the entry with the new result, stamped
    with the clock reading taken after the answer; the cache has the same
    keys as before. *)
Theorem expired_entry_is_refetched_and_overwritten (env : Env) (w : World)
        (document : TextDocument) (position : Position) (functionRange : Range)
        (old : CachedComplexity) (r : AxiosResponse) :
  let functionCode := getTextIn document functionRange in
  let after := snd (provideHover document position env w) in
  getFunctionAtPosition document position = Returned (Some functionRange) ->
  complexityCache w !! getCacheKey functionCode = Some old ->
  timestamp old + CACHE_DURATION <= clock env (clockReads w) ->
  service env (requests w) functionCode = Resolved r ->
  requests after = S (requests w)
  /\ complexityCache after !! getCacheKey functionCode
     = Some (mkCached (data r) functionCode (clock env (S (clockReads w))))
  /\ dom (complexityCache after) = dom (complexityCache w).
Proof.
  intros functionCode after Hloc Hold Hexpired Hok.
  assert (Hmiss : cacheGet (complexityCache w) functionCode
                    (clock env (clockReads w)) = None).
  { unfold cacheGet, fresh. rewrite Hold.
    replace (_ <? CACHE_DURATION) with false; [reflexivity|].
    symmetry. apply Z.ltb_ge. lia. }
  assert (Hrun := provideHover_miss_resolved env w document position
                    functionRange Hloc r Hmiss Hok).
  cbv zeta in Hrun. unfold writeIndex in Hrun. fold functionCode in Hrun.
  rewrite Hold in Hrun.
  subst after. rewrite Hrun.
  destruct (createHoverMarkdown (data r));
    cbn [snd requests complexityCache withCache withTrace withClockReads
         withRequests];
    (split; [reflexivity|]); unfold cachePut;
    (split; [apply lookup_insert_eq|]);
    apply dom_insert_lookup_L; eauto.
Qed.

(** Witness for X9: the entry of [worldStale] was written at time 1000 and
    the clock stands at 401000. *)
Lemma expired_entry_is_refetched_and_overwritten_witness :
  requests (snd (provideHover docAdd (mkPosition 0 3) envOk worldStale)) = 1%nat.
Proof.
  refine (proj1 (expired_entry_is_refetched_and_overwritten envOk worldStale
                   docAdd (mkPosition 0 3)
                   (mkRange (mkPosition 0 0) (mkPosition 2 1))
                   (mkCached JNull (getText docAdd) 1000)
                   (mkResponse 200 verdict) eq_refl _ _ eq_refl)).
  - vm_compute. reflexivity.
  - vm_compute. discriminate.
Defined.

(** ** Manual analysis and the cache *)

Section ManualAnalysis.

Variable env : Env.

Local Abbreviation oblivious := (cacheOblivious env).

Lemma oblivious_bind {A B : Type} (m : M A) (f : A -> M B) :
  oblivious m -> (forall a, oblivious (f a)) -> oblivious (bind m f).
Proof.
  intros Hm Hf w c. unfold bind. rewrite Hm.
  destruct (m env w) as [[a|e] w1]; cbn [fst snd]; [apply Hf | reflexivity].
Qed.

Lemma oblivious_tryCatch {A : Type} (m : M A) (h : JsError -> M A) :
  oblivious m -> (forall e, oblivious (h e)) -> oblivious (tryCatch m h).
Proof.
  intros Hm Hh w c. unfold tryCatch. rewrite Hm.
  destruct (m env w) as [[a|e] w1]; cbn [fst snd]; [reflexivity | apply Hh].
Qed.

Lemma oblivious_emit (e : Effect) : oblivious (emit e).
Proof. intros w c. reflexivity. Qed.

Lemma oblivious_lift {A : Type} (x : Exc A) : oblivious (lift x).
Proof. intros w c. reflexivity. Qed.

Lemma oblivious_analyzeCode (code : jsstring) : oblivious (analyzeCode code).
Proof.
  intros w c. rewrite !analyzeCode_run. cbn [requests withCache].
  destruct (service env (requests w) code); reflexivity.
Qed.

Lemma oblivious_showAnalysisResult (v : JsValue) : oblivious (showAnalysisResult v).
Proof.
  unfold showAnalysisResult.
  repeat (apply oblivious_bind; [apply oblivious_lift | intros ?]).
  apply oblivious_emit.
Qed.

(** [analyzeSelection] once the editor and the text are known. *)
Lemma analyzeSelection_run (w : World) :
  analyzeSelection env w
  = match activeTextEditor w with
    | None => emit (ShowErrorMessage [Lit "No active editor found"]) env w
    | Some editor =>
        if whitespaceOnly (selectedText w editor)
        then emit (ShowErrorMessage [Lit "No code selected"]) env w
        else (emit (WithProgress "Analyzing code complexity...") ;;;
              detached (result <- analyzeCode (selectedText w editor) ;;
                        showAnalysisResult result)) env w
    end.
Proof.
  unfold analyzeSelection, bind at 1, get.
  destruct (activeTextEditor w) as [editor|]; [|reflexivity].
  fold (selectedText w editor). rewrite trim_empty.
  destruct (whitespaceOnly (selectedText w editor)); reflexivity.
Qed.

Lemma oblivious_analysis (code : jsstring) :
  oblivious (emit (WithProgress "Analyzing code complexity...") ;;;
             detached (result <- analyzeCode code ;; showAnalysisResult result)).
Proof.
  apply oblivious_bind; [apply oblivious_emit | intros _].
  apply oblivious_tryCatch; [|intros e; apply oblivious_emit].
  apply oblivious_bind; [apply oblivious_analyzeCode|].
  apply oblivious_showAnalysisResult.
Qed.

Lemma analyzeSelection_withCache (w : World) (c : gmap string CachedComplexity) :
  analyzeSelection env (withCache c w)
  = (fst (analyzeSelection env w), withCache c (snd (analyzeSelection env w))).
Proof.
  rewrite !analyzeSelection_run.
  change (activeTextEditor (withCache c w)) with (activeTextEditor w).
  destruct (activeTextEditor w) as [editor|]; [|reflexivity].
  change (selectedText (withCache c w) editor) with (selectedText w editor).
  destruct (whitespaceOnly (selectedText w editor)); [reflexivity|].
  apply oblivious_analysis.
Qed.

Lemma analyzeSelection_cache (w : World) :
  complexityCache (snd (analyzeSelection env w)) = complexityCache w.
Proof.
  pose proof (analyzeSelection_withCache w (complexityCache w)) as H.
  replace (withCache (complexityCache w) w) with w in H by (destruct w; reflexivity).
  rewrite H. reflexivity.
Qed.

End ManualAnalysis.

(** X10: manual analysis neither consults nor fills the cache.  Its result
    and everything it does (request, notifications, log) are the same
    whatever the cache holds, and the cache is the same afterwards: a
    verdict just fetched by a hover is fetched again, and a verdict fetched
    manually is not there for the next hover or pass. *)
Theorem manual_analysis_ignores_the_cache (env : Env) (w : World)
        (c : gmap string CachedComplexity) :
  fst (analyzeSelection env (withCache c w)) = fst (analyzeSelection env w)
  /\ trace (snd (analyzeSelection env (withCache c w)))
     = trace (snd (analyzeSelection env w))
  /\ requests (snd (analyzeSelection env (withCache c w)))
     = requests (snd (analyzeSelection env w))
  /\ complexityCache (snd (analyzeSelection env (withCache c w))) = c
  /\ complexityCache (snd (analyzeSelection env w)) = complexityCache w.
Proof.
  rewrite analyzeSelection_withCache. cbn [fst snd].
  repeat split. apply analyzeSelection_cache.
Qed.

(** ** Rendering a verdict *)

Section Rendering.

Lemma isLevel_string (v : JsValue) : isLevel v = true -> exists s, v = JStr s.
Proof. destruct v; try discriminate. eauto. Qed.

(** What [wellFormedVerdict] gives the renderers: an object with a string
    for its level and an object for its metrics. *)
Lemma wellFormedVerdict_fields (v : JsValue) :
  wellFormedVerdict v = true ->
  exists fields level metrics,
    v = JObj fields
    /\ assoc (u16 "complexity") fields = JStr level
    /\ assoc (u16 "metrics") fields = JObj metrics.
Proof.
  destruct v as [| | | | | |fields]; try discriminate.
  unfold wellFormedVerdict, getPropOpt at 1 2 3, getProp.
  intros H. repeat (apply andb_true_iff in H as [H ?]).
  destruct (isLevel_string _ H) as [level Hlevel].
  destruct (assoc (u16 "metrics") fields) as [| | | | | |metrics] eqn:Hm;
    try discriminate.
  eauto 6.
Qed.

End Rendering.

(** X11: a well-formed verdict can always be rendered, by all three
    renderers: the hover text and the inline decoration are produced, and
    the manual path shows exactly one information message, whose last
    button is 'Dismiss'. *)
Theorem well_formed_verdict_always_renders (v : JsValue) :
  wellFormedVerdict v = true ->
  (exists hover, createHoverMarkdown v = Returned hover)
  /\ (forall r, exists decoration, createInlineDecoration r v = Returned decoration)
  /\ (forall env w,
        exists text items,
          showAnalysisResult v env w
          = (Returned tt,
             withTrace
               (trace w ++ [ShowInformationMessage text (items ++ ["Dismiss"%string])])
               w)).
Proof.
  intros Hwf.
  destruct (wellFormedVerdict_fields v Hwf) as (fields & level & metrics & -> & Hl & Hm).
  split; [|split].
  - unfold createHoverMarkdown, suggestionsOf, getProp. rewrite Hl, Hm.
    cbn [exc_bind toUpperCase]. eauto.
  - intros r. unfold createInlineDecoration, getProp. cbn [exc_bind]. eauto.
  - intros env w.
    unfold showAnalysisResult, metricsText, suggestionsOf, getProp, bind, lift, emit.
    rewrite Hl, Hm. cbn [exc_bind toUpperCase]. eauto.
Qed.

(** Witness for X11: the sample [verdict]. *)
Lemma well_formed_verdict_always_renders_witness :
  exists hover, createHoverMarkdown verdict = Returned hover.
Proof.
  exact (proj1 (well_formed_verdict_always_renders verdict eq_refl)).
Defined.

(** ** The pass: where decorations go, and what an empty cache gives *)

Section PassWorld.

Variable env : Env.

(** The world after a pass: the clock has been read some number of times
    and at most one event, the new set of decorations, is on the trace. *)
Lemma pass_world (w : World) (editor : nat) :
  exists n extra,
    snd (updateInlineDecorations editor env w)
    = withTrace (trace w ++ extra) (withClockReads n w)
    /\ (extra = []
        \/ exists decorations,
            extra = [SetDecorations editor decorations]
            /\ Forall (fromFreshHit env (complexityCache w) (documents w editor))
                      decorations).
Proof.
  rewrite updateInlineDecorations_run.
  destruct (inlineEnabled w).
  - destruct (collectDecorations_total env (documents w editor) w)
      as (w' & Hq & [(ds & Hloop & Hall) | (Hloop & _)]);
      rewrite Hloop; unfold quiet in Hq; rewrite Hq; cbn [snd emit].
    + exists (clockReads w'), [SetDecorations editor ds]. split; [reflexivity|].
      right. eauto.
    + exists (clockReads w'), []. rewrite app_nil_r. split; [|left; reflexivity].
      destruct w; reflexivity.
  - exists (clockReads w), []. rewrite app_nil_r. split; [|left; reflexivity].
    destruct w; reflexivity.
Qed.

(** The same for a pass nobody awaits: a rejection adds its own event. *)
Lemma detached_pass_world (w : World) (editor : nat) :
  exists n extra,
    snd (detached (updateInlineDecorations editor) env w)
    = withTrace (trace w ++ extra) (withClockReads n w)
    /\ Forall (fun ev => (exists ds, ev = SetDecorations editor ds)
                         \/ exists e, ev = UnhandledRejection e) extra.
Proof.
  destruct (pass_world w editor) as (n & extra & Hw & Hextra).
  unfold detached, tryCatch.
  destruct (updateInlineDecorations editor env w) as [[[]|e] w'] eqn:Hrun;
    cbn [snd] in *; subst w'.
  - exists n, extra. split; [reflexivity|].
    destruct Hextra as [-> | (ds & -> & _)];
      [constructor | constructor; [left; eauto | constructor]].
  - exists n, (extra ++ [UnhandledRejection e]). unfold emit. cbn [snd trace withTrace].
    rewrite <- app_assoc. split; [reflexivity|].
    destruct Hextra as [-> | (ds & -> & _)]; cbn [app].
    + constructor; [right; eauto | constructor].
    + constructor; [left; eauto | constructor; [right; eauto | constructor]].
Qed.

Lemma located_span_start (d : TextDocument) (p : Position) (r : Range) :
  getFunctionAtPosition d p = Returned (Some r) ->
  character (start r) = 0%nat
  /\ exists text,
      lines d !! line (start r) = Some text /\ functionRegex_test text = true.
Proof.
  intros Hr.
  destruct (lines d !! line p) as [text|] eqn:Hp.
  2:{ unfold getFunctionAtPosition, lineAt in Hr. rewrite Hp in Hr. discriminate. }
  rewrite (getFunctionAtPosition_unfold d p text Hp) in Hr.
  destruct (functionRegex_test text) eqn:Ht; [|discriminate].
  destruct (closingLine d (line p)); [|discriminate].
  injection Hr as <-. cbn [start line character]. eauto.
Qed.

Lemma fromFreshHit_atDeclaration (cache : gmap string CachedComplexity)
      (d : TextDocument) (decoration : DecorationOptions) :
  fromFreshHit env cache d decoration -> atDeclaration d decoration.
Proof.
  intros (index & r & cached & n & _ & Hloc & _ & _ & Hdec).
  destruct (located_span_start _ _ _ Hloc) as (Hcol & Hline).
  unfold createInlineDecoration in Hdec.
  destruct (getProp (result cached) "complexity"); [|discriminate].
  injection Hdec as <-. unfold atDeclaration. cbn [range start end_]. auto.
Qed.

(** With nothing in the cache the loop of the pass finds nothing to draw
    and reads no clock. *)
Lemma collectDecorations_empty_cache (document : TextDocument) (w : World) :
  lines document <> [] ->
  complexityCache w = ∅ ->
  forall indices decorations,
    collectDecorations document indices decorations env w
    = (Returned decorations, w).
Proof.
  intros Hlines Hempty indices.
  induction indices as [|index rest IH]; intros decorations; [reflexivity|].
  rewrite collectDecorations_step.
  destruct (getFunctionAtPosition_returns document (positionAt document index))
    as [found Hfound].
  { unfold positionAt, lineCount.
    pose proof (positionIn_line (lines document)
                  (length (eolText (eol document))) 0 index Hlines).
    lia. }
  rewrite Hfound. destruct found as [r|]; [|apply IH].
  rewrite Hempty, lookup_empty. apply IH.
Qed.

End PassWorld.

(** X12: every decoration a pass draws has zero width and sits at column 0
    of a line of the document that matches the start pattern. *)
Theorem decorations_sit_on_declaration_lines (env : Env) (w : World)
        (editor : nat) (decorations : list DecorationOptions) :
  trace (snd (updateInlineDecorations editor env w))
  = trace w ++ [SetDecorations editor decorations] ->
  Forall (atDeclaration (documents w editor)) decorations.
Proof.
  intros Htrace.
  destruct (pass_world env w editor) as (n & extra & Hw & Hextra).
  rewrite Hw in Htrace. cbn [trace withTrace] in Htrace.
  apply app_inv_head in Htrace.
  destruct Hextra as [-> | (ds & -> & Hall)]; [discriminate|].
  injection Htrace as <-.
  eapply Forall_impl; [exact Hall|].
  intros d. apply fromFreshHit_atDeclaration.
Qed.

(** Witness for X12: a pass over [docAdd] with its verdict in the cache. *)
Lemma decorations_sit_on_declaration_lines_witness :
  Forall (atDeclaration docAdd) [sampleDecoration].
Proof.
  apply (decorations_sit_on_declaration_lines envOk worldCached 0
           [sampleDecoration]).
  vm_compute. reflexivity.
Defined.

(** X13: with an empty cache a pass draws the empty set, whatever the
    document holds: it clears the editor's decorations, reads no clock and
    cannot fail.  So the initial decoration of a session, whose cache is
    empty, draws nothing on the active editor: markers only appear once a
    hover has filled the cache. *)
Theorem pass_over_empty_cache_draws_nothing (env : Env) (w : World) (editor : nat) :
  inlineEnabled w = true ->
  complexityCache w = ∅ ->
  updateInlineDecorations editor env w
  = (Returned tt, withTrace (trace w ++ [SetDecorations editor []]) w)
  /\ (activeTextEditor w = Some editor ->
      initialDecoration env w
      = (Returned tt, withTrace (trace w ++ [SetDecorations editor []]) w)).
Proof.
  intros Hen Hempty.
  assert (Hpass : updateInlineDecorations editor env w
                  = (Returned tt, withTrace (trace w ++ [SetDecorations editor []]) w)).
  { rewrite updateInlineDecorations_run, Hen.
    destruct (lines (documents w editor)) as [|l ls] eqn:Hlines.
    - unfold getText. rewrite Hlines. reflexivity.
    - rewrite collectDecorations_empty_cache; [reflexivity| |exact Hempty].
      rewrite Hlines. discriminate. }
  split; [exact Hpass|].
  intros Hed. unfold initialDecoration, bind, get, detached, tryCatch.
  rewrite Hed, Hen, Hpass. reflexivity.
Qed.

(** Witness for X13: the first pass of a session on [docAdd]. *)
Lemma pass_over_empty_cache_draws_nothing_witness :
  updateInlineDecorations 0 envOk (world0 docAdd)
  = (Returned tt, withTrace [SetDecorations 0 []] (world0 docAdd)).
Proof.
  exact (proj1 (pass_over_empty_cache_draws_nothing envOk (world0 docAdd) 0
                  eq_refl eq_refl)).
Defined.

(** ** The switch *)

Section Switch.

Variable env : Env.

Lemma toggleInlineAnalysis_run (w : World) :
  toggleInlineAnalysis env w
  = let w1 :=
      withTrace
        (trace w
         ++ [ShowInformationMessage
               [Lit "Inline analysis ";
                Lit (if negb (inlineEnabled w) then "enabled" else "disabled")] []])
        (withInlineEnabled (negb (inlineEnabled w)) w) in
    match activeTextEditor w with
    | Some editor =>
        if negb (inlineEnabled w)
        then detached (updateInlineDecorations editor) env w1
        else emit (SetDecorations editor []) env w1
    | None => (Returned tt, w1)
    end.
Proof.
  unfold toggleInlineAnalysis, bind, get, setInlineEnabled, emit.
  cbn [inlineEnabled activeTextEditor withInlineEnabled withTrace].
  destruct (activeTextEditor w), (inlineEnabled w); reflexivity.
Qed.

Lemma pass_disabled (w : World) (editor : nat) :
  inlineEnabled w = false ->
  runListener (detached (updateInlineDecorations editor)) env w = w.
Proof.
  intros Hoff. unfold runListener, detached, tryCatch.
  rewrite updateInlineDecorations_run, Hoff. reflexivity.
Qed.

Lemma dormant_refl (w : World) : dormant w w.
Proof.
  exists (documents w), (activeTextEditor w), (timers w), (time w).
  split; [destruct w; reflexivity | apply incl_refl].
Qed.

Lemma dormant_trans (w1 w2 w3 : World) :
  dormant w1 w2 -> dormant w2 w3 -> dormant w1 w3.
Proof.
  intros (d2 & a2 & ts2 & t2 & -> & Hin2) (d3 & a3 & ts3 & t3 & -> & Hin3).
  exists d3, a3, ts3, t3. split; [reflexivity|].
  cbn [timers] in Hin3. eapply incl_tran; eassumption.
Qed.

Lemma fireTimers_dormant (queue : list Timer) (t : Z) :
  forall w,
    inlineEnabled w = false ->
    incl queue (timers w) ->
    dormant w (fireTimers queue t env w).
Proof.
  induction queue as [|tm rest IH]; intros w Hoff Hin; [apply dormant_refl|].
  cbn [fireTimers]. destruct (due tm <=? t); [|apply dormant_refl].
  rewrite pass_disabled by exact Hoff.
  apply (dormant_trans _ (atTime (due tm) (withTimers rest w))).
  - exists (documents w), (activeTextEditor w), rest, (due tm).
    split; [reflexivity|]. intros x Hx. apply Hin. right. exact Hx.
  - apply IH; [exact Hoff | apply incl_refl].
Qed.

Lemma dispatch_dormant (e : HostEvent) (w : World) :
  inlineEnabled w = false -> dormant w (dispatch e env w).
Proof.
  intros Hoff. destruct e as [id content|editor];
    unfold dispatch, runListener.
  - unfold onDidChangeTextDocument, bind, get.
    cbn [activeTextEditor inlineEnabled withDocument]. rewrite Hoff.
    destruct (activeTextEditor w) as [editor|] eqn:Ha;
      [rewrite andb_false_r|];
      (exists (fun i => if decide (i = id) then content else documents w i),
              (activeTextEditor w), (timers w), (time w));
      (split; [reflexivity | apply incl_refl]).
  - unfold onDidChangeActiveTextEditor, bind, get.
    cbn [inlineEnabled withActiveEditor]. rewrite Hoff.
    exists (documents w), editor, (timers w), (time w).
    split; [|apply incl_refl].
    destruct editor; reflexivity.
Qed.

Lemma dormant_off (w w' : World) :
  dormant w w' -> inlineEnabled w' = inlineEnabled w.
Proof. intros (d & a & ts & t & -> & _). reflexivity. Qed.

End Switch.

(** X14: the switch.  With an active editor, [toggleInlineAnalysis] flips
    the flag and announces the new state; switching off clears the editor's
    decorations at once, switching on runs one pass at once: the editor's
    decorations are replaced by those of the unexpired cache hits among the
    document's spans, or, when a hit cannot be rendered, the pass nobody
    awaits ends in an unhandled rejection.  The switch sends no request,
    leaves the cache alone, and neither sets nor cancels a timer: timers
    pending at the moment of switching off stay pending. *)
Theorem toggle_flips_announces_and_redraws (env : Env) (w : World) (editor : nat) :
  activeTextEditor w = Some editor ->
  let w' := snd (toggleInlineAnalysis env w) in
  inlineEnabled w' = negb (inlineEnabled w)
  /\ complexityCache w' = complexityCache w
  /\ requests w' = requests w
  /\ timers w' = timers w
  /\ exists tail,
      trace w'
      = trace w
        ++ ShowInformationMessage
             [Lit "Inline analysis ";
              Lit (if inlineEnabled w then "disabled" else "enabled")] []
           :: tail
      /\ if inlineEnabled w then tail = [SetDecorations editor []]
         else match annotationsOf (passHits env w editor) with
              | Returned decorations => tail = [SetDecorations editor decorations]
              | Threw _ => tail = [UnhandledRejection ETypeError]
              end.
Proof.
  intros Hed w'. subst w'. rewrite toggleInlineAnalysis_run, Hed. cbv zeta.
  destruct (inlineEnabled w) eqn:Hen; cbn [negb].
  - cbn [snd emit inlineEnabled complexityCache requests timers trace
         withTrace withInlineEnabled].
    repeat split. exists [SetDecorations editor []].
    rewrite <- app_assoc. split; reflexivity.
  - match goal with
    | |- context [detached (updateInlineDecorations editor) env ?w1] =>
        destruct (pass_outcome env w1 editor eq_refl) as [n Hrun];
        change (passHits env w1 editor) with (passHits env w editor) in Hrun
    end.
    unfold detached, tryCatch. rewrite Hrun.
    destruct (annotationsOf (passHits env w editor)) as [ds|e] eqn:Hann.
    + cbn [snd inlineEnabled complexityCache requests timers trace
           withTrace withInlineEnabled withClockReads].
      repeat split. exists [SetDecorations editor ds].
      rewrite <- app_assoc. split; reflexivity.
    + destruct (annotationsOf_throws _ _ Hann) as [-> _].
      cbn [snd emit inlineEnabled complexityCache requests timers trace
           withTrace withInlineEnabled withClockReads].
      repeat split. exists [UnhandledRejection ETypeError].
      rewrite <- app_assoc. split; reflexivity.
Qed.

(** Witness for X14: switching on in a world whose cache holds the verdict
    for [docAdd] announces the new state and draws the verdict's
    decoration; switching off in the first world of a session clears. *)
Lemma toggle_flips_announces_and_redraws_witness :
  trace (snd (toggleInlineAnalysis envOk (withInlineEnabled false worldCached)))
  = [ShowInformationMessage [Lit "Inline analysis "; Lit "enabled"] [];
     SetDecorations 0 [sampleDecoration]]
  /\ trace (snd (toggleInlineAnalysis envOk (world0 docAdd)))
     = [ShowInformationMessage [Lit "Inline analysis "; Lit "disabled"] [];
        SetDecorations 0 []].
Proof.
  split.
  - pose proof (toggle_flips_announces_and_redraws envOk
                  (withInlineEnabled false worldCached) 0 eq_refl) as H.
    cbv zeta in H. destruct H as (_ & _ & _ & _ & tail & Htrace & Htail).
    rewrite Htrace. vm_compute in Htail. rewrite Htail. reflexivity.
  - pose proof (toggle_flips_announces_and_redraws envOk (world0 docAdd) 0
                  eq_refl) as H.
    cbv zeta in H. destruct H as (_ & _ & _ & _ & tail & Htrace & Htail).
    rewrite Htrace. vm_compute in Htail. rewrite Htail. reflexivity.
Defined.

(** X15: while inline analysis is switched off, nothing the host delivers
    has any effect.  Edits set no timer, a change of the active editor
    draws nothing, and timers still pending from before fire without
    drawing: the trace, the cache, the number of requests and of clock
    readings stay as they were, and no timer is added. *)
Theorem nothing_is_drawn_while_switched_off (env : Env) (w : World)
        (events : list (Z * HostEvent)) (horizon : Z) :
  inlineEnabled w = false ->
  dormant w (runHost events horizon env w).
Proof.
  revert w. induction events as [|[t e] rest IH]; intros w Hoff; cbn [runHost].
  - unfold advanceTo.
    destruct (fireTimers_dormant env (timers w) horizon w Hoff (incl_refl _))
      as (d & a & ts & t & -> & Hin).
    exists d, a, ts, horizon. split; [reflexivity | exact Hin].
  - assert (H1 : dormant w (advanceTo t env w)).
    { unfold advanceTo.
      destruct (fireTimers_dormant env (timers w) t w Hoff (incl_refl _))
        as (d & a & ts & t' & -> & Hin).
      exists d, a, ts, t. split; [reflexivity | exact Hin]. }
    assert (Hoff1 : inlineEnabled (advanceTo t env w) = false)
      by (rewrite (dormant_off _ _ H1); exact Hoff).
    assert (H2 := dispatch_dormant env e _ Hoff1).
    assert (Hoff2 : inlineEnabled (dispatch e env (advanceTo t env w)) = false)
      by (rewrite (dormant_off _ _ H2); exact Hoff1).
    exact (dormant_trans _ _ _ (dormant_trans _ _ _ H1 H2) (IH _ Hoff2)).
Qed.

(** Witness for X15: a timer set while analysis was on, analysis then
    switched off, two more edits, and time running on past all of them. *)
Lemma nothing_is_drawn_while_switched_off_witness :
  trace (runHost [(100, TextDocumentChanged 0 docAdd);
                  (200, TextDocumentChanged 0 docOpen)] 1000 envOk
           (withInlineEnabled false
              (withTimers [mkTimer 500 0] (world0 docAdd))))
  = [].
Proof.
  destruct (nothing_is_drawn_while_switched_off envOk
              (withInlineEnabled false (withTimers [mkTimer 500 0] (world0 docAdd)))
              [(100, TextDocumentChanged 0 docAdd);
               (200, TextDocumentChanged 0 docOpen)] 1000 eq_refl)
    as (d & a & ts & t & -> & _).
  reflexivity.
Defined.

(** ** Timers *)

(** X16: there is no debouncing.  In a session with analysis on and no
    timer pending, every edit of the active document sets a timer of its
    own and none is ever cancelled: once all timers have fired, as many
    passes have run as there were edits, however close together the edits
    came. *)
Theorem each_edit_runs_a_pass_of_its_own (env : Env) (editor : nat) (horizon : Z)
        (edits : list (Z * HostEvent)) (w : World) :
  inlineEnabled w = true ->
  activeTextEditor w = Some editor ->
  timers w = [] ->
  Forall (fun te => isEditOf editor (snd te) /\ fst te + 500 <= horizon) edits ->
  timers (runHost edits horizon env w) = []
  /\ length (trace (runHost edits horizon env w))
     = (length (trace w) + length edits)%nat.
Proof.
  intros Hen Hed Htimers Hall.
  apply (every_edit_runs_a_pass env editor horizon edits (length (trace w)) w Hall).
  unfold scheduled. rewrite Htimers. cbn [length].
  repeat split; [exact Hen | exact Hed | constructor | lia].
Qed.

(** Witness for X16: three edits within 20 ms. *)
Lemma each_edit_runs_a_pass_of_its_own_witness :
  length (trace (runHost [(0, TextDocumentChanged 0 docOpen);
                          (10, TextDocumentChanged 0 docAdd);
                          (20, TextDocumentChanged 0 docOpen)] 1000 envOk
                   (world0 docBlank)))
  = 3%nat.
Proof.
  refine (proj2 (each_edit_runs_a_pass_of_its_own envOk 0 1000
                   [(0, TextDocumentChanged 0 docOpen);
                    (10, TextDocumentChanged 0 docAdd);
                    (20, TextDocumentChanged 0 docOpen)] (world0 docBlank)
                   eq_refl eq_refl eq_refl _)).
  repeat constructor; cbn; lia.
Defined.

(** ** The cache over a whole session *)

Section Session.

Variable env : Env.

Lemma provideHover_cache_cases (w : World) (document : TextDocument)
      (position : Position) :
  complexityCache (snd (provideHover document position env w)) = complexityCache w
  \/ exists functionCode v T,
      complexityCache (snd (provideHover document position env w))
      = cachePut (complexityCache w) functionCode v T.
Proof.
  destruct (getFunctionAtPosition document position) as [[r|]|e] eqn:Hloc.
  2,3: left; unfold provideHover, bind, lift; rewrite Hloc; reflexivity.
  destruct (cacheGet (complexityCache w) (getTextIn document r)
              (clock env (clockReads w))) as [v|] eqn:Hget.
  - left. rewrite (provideHover_hit env w document position r Hloc v Hget).
    reflexivity.
  - destruct (service env (requests w) (getTextIn document r)) as [resp|err] eqn:Hs.
    + right.
      pose proof (provideHover_miss_resolved env w document position r Hloc
                    resp Hget Hs) as Hrun.
      cbv zeta in Hrun. rewrite Hrun.
      destruct (createHoverMarkdown (data resp)); eexists _, _, _; reflexivity.
    + left.
      rewrite (provideHover_miss_rejected env w document position r Hloc err Hget Hs).
      reflexivity.
Qed.

Lemma pass_cache (w : World) (editor : nat) :
  complexityCache (snd (updateInlineDecorations editor env w)) = complexityCache w.
Proof.
  destruct (pass_world env w editor) as (n & extra & -> & _). reflexivity.
Qed.

Lemma detached_pass_cache (w : World) (editor : nat) :
  complexityCache (runListener (detached (updateInlineDecorations editor)) env w)
  = complexityCache w.
Proof.
  unfold runListener.
  destruct (detached_pass_world env w editor) as (n & extra & -> & _). reflexivity.
Qed.

Lemma toggle_cache (w : World) :
  complexityCache (snd (toggleInlineAnalysis env w)) = complexityCache w.
Proof.
  rewrite toggleInlineAnalysis_run. cbv zeta.
  destruct (activeTextEditor w) as [editor|]; [|reflexivity].
  destruct (negb (inlineEnabled w)); [|reflexivity].
  match goal with
  | |- context [detached (updateInlineDecorations editor) env ?w1] =>
      destruct (detached_pass_world env w1 editor) as (n & extra & -> & _)
  end.
  reflexivity.
Qed.

Lemma fireTimers_cache (queue : list Timer) (t : Z) :
  forall w, complexityCache (fireTimers queue t env w) = complexityCache w.
Proof.
  induction queue as [|tm rest IH]; intros w; [reflexivity|].
  cbn [fireTimers]. destruct (due tm <=? t); [|reflexivity].
  rewrite IH, detached_pass_cache. reflexivity.
Qed.

Lemma dispatch_cache (e : HostEvent) (w : World) :
  complexityCache (dispatch e env w) = complexityCache w.
Proof.
  destruct e as [id content|editor]; unfold dispatch.
  - unfold runListener, onDidChangeTextDocument, bind, get.
    cbn [activeTextEditor inlineEnabled withDocument].
    destruct (activeTextEditor w); [|reflexivity].
    destruct (bool_decide _ && inlineEnabled w); reflexivity.
  - unfold onDidChangeActiveTextEditor.
    destruct editor as [editor|]; [|reflexivity].
    unfold runListener, bind at 1, get. cbn [inlineEnabled withActiveEditor].
    destruct (inlineEnabled w); [|reflexivity].
    exact (detached_pass_cache (withActiveEditor (Some editor) w) editor).
Qed.

Lemma runHost_cache (events : list (Z * HostEvent)) (horizon : Z) :
  forall w, complexityCache (runHost events horizon env w) = complexityCache w.
Proof.
  induction events as [|[t e] rest IH]; intros w; cbn [runHost].
  - unfold advanceTo. cbn [complexityCache atTime]. apply fireTimers_cache.
  - rewrite IH, dispatch_cache. unfold advanceTo. cbn [complexityCache atTime].
    apply fireTimers_cache.
Qed.

(** Only a hover writes to the cache, and what it writes is one entry. *)
Lemma perform_cache_cases (a : Action) (w : World) :
  complexityCache (perform a env w) = complexityCache w
  \/ (isHoverAction a = true
      /\ exists functionCode v T,
          complexityCache (perform a env w)
          = cachePut (complexityCache w) functionCode v T).
Proof.
  destruct a as [document position| | |editor|events horizon]; cbn [perform].
  - destruct (provideHover_cache_cases w document position) as [H|H];
      [left; exact H | right; split; [reflexivity | exact H]].
  - left. apply analyzeSelection_cache.
  - left. apply toggle_cache.
  - left. apply pass_cache.
  - left. apply runHost_cache.
Qed.

End Session.

(** X17: nothing is ever evicted.  Over any sequence of hovers, manual
    analyses, toggles, passes and host events, every key that is in the
    cache stays in it (an expired entry too: it is only ever overwritten),
    the cache grows by at most one entry per hover, and without a hover it
    does not change at all. *)
Theorem cache_only_grows_and_only_by_hovers (env : Env) (actions : list Action)
        (w : World) :
  dom (complexityCache w) ⊆ dom (complexityCache (performAll actions env w))
  /\ (size (complexityCache (performAll actions env w))
      <= size (complexityCache w) + length (List.filter isHoverAction actions))%nat
  /\ (existsb isHoverAction actions = false ->
      complexityCache (performAll actions env w) = complexityCache w).
Proof.
  revert w. unfold performAll.
  induction actions as [|a rest IH]; intros w; cbn [fold_left List.filter existsb].
  - repeat split; [reflexivity | cbn [length]; lia].
  - destruct (IH (perform a env w)) as (Hdom & Hsize & Hsame).
    destruct (perform_cache_cases env a w) as [Hc | (Hhover & code & v & T & Hc)].
    + rewrite Hc in Hdom, Hsize, Hsame. split; [exact Hdom|]. split.
      * destruct (isHoverAction a); cbn [length]; lia.
      * intros Hno. apply orb_false_iff in Hno as [_ Hno]. exact (Hsame Hno).
    + rewrite Hhover. cbn [orb length]. split; [|split; [|discriminate]].
      * etransitivity; [|exact Hdom]. rewrite Hc. unfold cachePut.
        apply dom_insert_subseteq.
      * rewrite Hc in Hsize. unfold cachePut in Hsize.
        rewrite map_size_insert in Hsize.
        destruct (complexityCache w !! getCacheKey code); cbn in Hsize; lia.
Qed.

(** Witness for X17: a session without a hover leaves the cache of
    [worldCached] as it is. *)
Lemma cache_only_grows_and_only_by_hovers_witness :
  complexityCache
    (performAll [DoToggle; DoAnalyzeSelection; DoPass 0; DoToggle] envOk worldCached)
  = complexityCache worldCached.
Proof.
  exact (proj2 (proj2 (cache_only_grows_and_only_by_hovers envOk
                         [DoToggle; DoAnalyzeSelection; DoPass 0; DoToggle]
                         worldCached)) eq_refl).
Defined.

(** ** The text of a span *)

Section SpanText.

Variable sep : list Z.

Lemma join_cons (l l2 : list Z) (rest : list (list Z)) :
  join sep (l :: l2 :: rest) = l ++ sep ++ join sep (l2 :: rest).
Proof. reflexivity. Qed.

Lemma offsetIn_cons (l l2 : list Z) (rest : list (list Z)) (n ch : nat) :
  offsetIn (l :: l2 :: rest) (length sep) (S n) ch
  = (length l + length sep + offsetIn (l2 :: rest) (length sep) n ch)%nat.
Proof. reflexivity. Qed.

Lemma offsetIn_start (ls : list (list Z)) : offsetIn ls (length sep) 0 0 = 0%nat.
Proof. destruct ls as [|l [|l2 rest]]; reflexivity. Qed.

(** The offset of the end of line [e] is the offset of the start of line
    [s] plus the offset of that end within the lines from [s] on. *)
Lemma offsetIn_split (s : nat) :
  forall (ls : list (list Z)) (e len : nat),
    (s <= e < length ls)%nat ->
    offsetIn ls (length sep) e len
    = (offsetIn ls (length sep) s 0
       + offsetIn (drop s ls) (length sep) (e - s) len)%nat.
Proof.
  induction s as [|s IH]; intros ls e len He.
  - rewrite offsetIn_start, Nat.sub_0_r. reflexivity.
  - destruct ls as [|l [|l2 rest]]; cbn [length] in He; try lia.
    destruct e as [|e]; [lia|].
    rewrite !offsetIn_cons. cbn [drop Nat.sub].
    rewrite (IH (l2 :: rest) e len) by (cbn [length]; lia). lia.
Qed.

Lemma drop_to_line (s : nat) :
  forall (ls : list (list Z)),
    (s < length ls)%nat ->
    drop (offsetIn ls (length sep) s 0) (join sep ls) = join sep (drop s ls).
Proof.
  induction s as [|s IH]; intros ls Hs.
  - rewrite offsetIn_start. reflexivity.
  - destruct ls as [|l [|l2 rest]]; cbn [length] in Hs; try lia.
    rewrite offsetIn_cons, join_cons. cbn [drop].
    rewrite <- Nat.add_assoc, drop_app_add, drop_app_add.
    apply IH. cbn [length]. lia.
Qed.

Lemma take_to_line_end (k : nat) :
  forall (ls : list (list Z)) (endText : list Z),
    ls !! k = Some endText ->
    take (offsetIn ls (length sep) k (length endText)) (join sep ls)
    = join sep (take (S k) ls).
Proof.
  induction k as [|k IH]; intros ls endText Hk.
  - destruct ls as [|l [|l2 rest]]; [discriminate| |]; injection Hk as ->.
    + cbn. rewrite Nat.min_id. apply firstn_all.
    + rewrite join_cons. cbn [offsetIn take join].
      rewrite Nat.min_id. apply take_app_length.
  - destruct ls as [|l [|l2 rest]]; [discriminate|discriminate|].
    cbn [lookup] in Hk. change ((l2 :: rest) !! k = Some endText) in Hk.
    rewrite offsetIn_cons, join_cons.
    rewrite <- Nat.add_assoc, take_app_add, take_app_add.
    rewrite (IH _ _ Hk).
    change (take (S (S k)) (l :: l2 :: rest)) with (l :: l2 :: take k rest).
    change (take (S k) (l2 :: rest)) with (l2 :: take k rest).
    rewrite join_cons. reflexivity.
Qed.

End SpanText.

(** X18: the text of a located span, which is what a hover hashes and
    sends to the classifier and what a pass looks up, is made of whole
    lines: the lines from the span's first to its last, in full, joined by
    the document's line terminator.  Whatever stands before the function on
    its first line and after the closing brace on its last is part of
    it. *)
Theorem span_text_is_whole_lines (d : TextDocument) (p : Position) (r : Range) :
  getFunctionAtPosition d p = Returned (Some r) ->
  getTextIn d r = wholeLines d (line p) (line (end_ r)).
Proof.
  intros Hr.
  destruct (lines d !! line p) as [text|] eqn:Hp.
  2:{ unfold getFunctionAtPosition, lineAt in Hr. rewrite Hp in Hr. discriminate. }
  rewrite (getFunctionAtPosition_unfold d p text Hp) in Hr.
  destruct (functionRegex_test text); [|discriminate].
  destruct (closingLine d (line p)) as [endLine|] eqn:Hc; [|discriminate].
  destruct (closingLine_in_document _ _ _ Hc) as [Hlt [endText He]].
  rewrite He in Hr. injection Hr as <-.
  pose proof (lookup_lt_Some _ _ _ He) as Hin.
  unfold getTextIn, offsetAt, substring, getText, wholeLines.
  cbn [start end_ line character default].
  set (sep := eolText (eol d)).
  rewrite (offsetIn_split sep (line p) (lines d) endLine (length endText)) by lia.
  rewrite Nat.add_comm, Nat.add_sub.
  rewrite drop_to_line by lia.
  replace (S endLine - line p)%nat with (S (endLine - line p)) by lia.
  apply take_to_line_end.
  rewrite lookup_drop, <- He. f_equal. lia.
Qed.

(** Witness for X18: the span of [docAdd] is the whole document. *)
Lemma span_text_is_whole_lines_witness :
  getTextIn docAdd (mkRange (mkPosition 0 0) (mkPosition 2 1))
  = wholeLines docAdd 0 2.
Proof.
  exact (span_text_is_whole_lines docAdd (mkPosition 0 3)
           (mkRange (mkPosition 0 0) (mkPosition 2 1)) eq_refl).
Defined.

(** ** A pending pass and a change of editor *)

Section EditorChange.

Variable env : Env.

(** With analysis on, a pass nobody awaits leaves exactly one event: the
    new decorations of its editor, or its rejection. *)
Lemma detached_pass_enabled (w : World) (editor : nat) :
  inlineEnabled w = true ->
  exists n ev,
    runListener (detached (updateInlineDecorations editor)) env w
    = withTrace (trace w ++ [ev]) (withClockReads n w)
    /\ ((exists ds, ev = SetDecorations editor ds)
        \/ exists e, ev = UnhandledRejection e).
Proof.
  intros Hen. unfold runListener, detached, tryCatch.
  rewrite updateInlineDecorations_run, Hen.
  destruct (collectDecorations_total env (documents w editor) w)
    as (w' & Hq & [(ds & Hloop & _) | (Hloop & _)]);
    rewrite Hloop; unfold quiet in Hq; rewrite Hq;
    eexists _, _; (split; [reflexivity|]); eauto.
Qed.

End EditorChange.

(** X19: a change of the active editor is not debounced, and a pending
    pass belongs to the editor of the edit that set it.  After an edit in
    editor [a] and, within the delay, a change to editor [b], a pass on [b]
    has run at once, and when the timer fires the pass it runs is on [a],
    although [b] is the active editor by then. *)
Theorem pending_pass_runs_on_the_editor_of_its_edit (env : Env) (w : World)
        (a b : nat) (content : TextDocument) (t t2 horizon : Z) :
  inlineEnabled w = true ->
  activeTextEditor w = Some a ->
  timers w = [] ->
  t2 < t + 500 <= horizon ->
  let atSwitch :=
    runHost [(t, TextDocumentChanged a content)] t2 env w in
  let switched := dispatch (ActiveEditorChanged (Some b)) env atSwitch in
  let final := advanceTo horizon env switched in
  exists now later,
    trace atSwitch = trace w
    /\ timers atSwitch = [mkTimer (t + 500) a]
    /\ trace switched = trace w ++ [now]
    /\ timers switched = [mkTimer (t + 500) a]
    /\ ((exists ds, now = SetDecorations b ds) \/ exists e, now = UnhandledRejection e)
    /\ trace final = trace w ++ [now; later]
    /\ timers final = []
    /\ activeTextEditor final = Some b
    /\ ((exists ds, later = SetDecorations a ds) \/ exists e, later = UnhandledRejection e).
Proof.
  intros Hen Hed Htimers Ht. cbv zeta.
  assert (Hedit :
    runHost [(t, TextDocumentChanged a content)] t2 env w
    = atTime t2 (withTimers [mkTimer (t + 500) a] (withDocument a content w))).
  { cbn [runHost]. unfold advanceTo at 2. rewrite Htimers. cbn [fireTimers].
    unfold dispatch, runListener, onDidChangeTextDocument, bind, get.
    cbn [activeTextEditor inlineEnabled withDocument atTime].
    rewrite Hed, Hen, bool_decide_eq_true_2 by reflexivity.
    cbn [andb snd setTimeout]. cbn [timers time atTime withDocument].
    rewrite Htimers. cbn [insertTimer].
    unfold advanceTo. cbn [timers withTimers fireTimers due].
    replace (t + 500 <=? t2) with false by (symmetry; apply Z.leb_gt; lia).
    reflexivity. }
  rewrite Hedit.
  destruct (detached_pass_enabled env
              (withActiveEditor (Some b)
                 (atTime t2 (withTimers [mkTimer (t + 500) a]
                               (withDocument a content w)))) b Hen)
    as (n1 & now & Hnow & Hnow_kind).
  assert (Hswitch :
    dispatch (ActiveEditorChanged (Some b)) env
      (atTime t2 (withTimers [mkTimer (t + 500) a] (withDocument a content w)))
    = withTrace (trace w ++ [now])
        (withClockReads n1
           (withActiveEditor (Some b)
              (atTime t2 (withTimers [mkTimer (t + 500) a]
                            (withDocument a content w)))))).
  { unfold dispatch. refine (eq_trans _ Hnow).
    unfold runListener, onDidChangeActiveTextEditor, bind at 1, get.
    cbn [inlineEnabled withActiveEditor atTime withTimers withDocument].
    rewrite Hen. reflexivity. }
  rewrite Hswitch.
  set (w1 := withTrace (trace w ++ [now]) _).
  destruct (detached_pass_enabled env (atTime (t + 500) (withTimers [] w1)) a Hen)
    as (n2 & later & Hlater & Hlater_kind).
  assert (Hfinal :
    advanceTo horizon env w1
    = atTime horizon
        (withTrace ((trace w ++ [now]) ++ [later])
           (withClockReads n2 (atTime (t + 500) (withTimers [] w1))))).
  { unfold advanceTo. subst w1.
    cbn [timers withTrace withClockReads withActiveEditor atTime withTimers
         fireTimers due timerEditor].
    replace (t + 500 <=? horizon) with true by (symmetry; apply Z.leb_le; lia).
    f_equal. exact Hlater. }
  rewrite Hfinal. exists now, later. subst w1.
  cbn [trace timers activeTextEditor withTrace withClockReads withActiveEditor
       atTime withTimers withDocument].
  rewrite <- app_assoc. repeat split; assumption.
Qed.

(** Witness for X19: an edit at time 0 in editor 0, a change to editor 1 at
    time 100. *)
Lemma pending_pass_runs_on_the_editor_of_its_edit_witness :
  timers (runHost [(0, TextDocumentChanged 0 docAdd)] 100 envOk (world0 docAdd))
  = [mkTimer 500 0].
Proof.
  destruct (pending_pass_runs_on_the_editor_of_its_edit envOk (world0 docAdd)
              0 1 docAdd 0 100 1000 eq_refl eq_refl eq_refl)
    as (now & later & _ & Htimers & _).
  - lia.
  - exact Htimers.
Defined.

(** ** When a hover goes to the network *)

(** X20: a hover sends a request exactly when it locates a span whose text
    has no fresh entry in the cache, and then it sends one, for that text,
    before anything else it does.  In every other case (no span, a position
    outside the document, a fresh entry) it sends none and leaves the trace
    as it was. *)
Theorem hover_requests_exactly_on_a_miss (env : Env) (w : World)
        (d : TextDocument) (p : Position) :
  let after := snd (provideHover d p env w) in
  let missed (r : Range) :=
    getFunctionAtPosition d p = Returned (Some r)
    /\ cacheGet (complexityCache w) (getTextIn d r) (clock env (clockReads w))
       = None in
  (exists r tail,
      missed r
      /\ requests after = S (requests w)
      /\ trace after = trace w ++ analyzeRequest w (getTextIn d r) :: tail)
  \/ ((forall r, ~ missed r)
      /\ requests after = requests w
      /\ trace after = trace w).
Proof.
  cbv zeta.
  destruct (getFunctionAtPosition d p) as [[r|]|e] eqn:Hloc.
  2,3: right; unfold provideHover, bind, lift; rewrite Hloc;
       (split; [intros r [Hr _]; discriminate | split; reflexivity]).
  destruct (cacheGet (complexityCache w) (getTextIn d r)
              (clock env (clockReads w))) as [v|] eqn:Hget.
  - right. rewrite (provideHover_hit env w d p r Hloc v Hget).
    split; [|split; reflexivity].
    intros r' [Hr' Hmiss]. injection Hr' as <-. congruence.
  - left. destruct (service env (requests w) (getTextIn d r)) as [resp|err] eqn:Hs.
    + pose proof (provideHover_miss_resolved env w d p r Hloc resp Hget Hs) as Hrun.
      cbv zeta in Hrun. rewrite Hrun.
      destruct (createHoverMarkdown (data resp));
        cbn [snd requests trace withTrace withCache withClockReads withRequests];
        eexists r, _; (split; [split; [reflexivity | exact Hget]|]);
        (split; [reflexivity|]); rewrite <- ?app_assoc; reflexivity.
    + rewrite (provideHover_miss_rejected env w d p r Hloc err Hget Hs).
      cbn [snd requests trace withTrace withClockReads withRequests].
      eexists r, _. split; [split; [reflexivity | exact Hget]|].
      split; [reflexivity|]. rewrite <- !app_assoc. reflexivity.
Qed.
